(** * Face-tracking overlay page: the render loop, the visibility gate and the
      recording toggle of [src/index.ts]

    The page is a top-level script that runs once, followed by callbacks that
    the browser invokes one at a time (resize, permission answer, animation
    frame, tracker visibility, click, recorder notifications).  The script and
    every callback are embedded as computations in a state-and-exception monad
    over a [World]: the mutable objects the script creates, the registered
    callbacks, and a log of the calls made to the libraries, in program order.

    The libraries themselves (Zappar camera and tracker, THREE renderer, the
    canvas video recorder) are not part of the repository.  The camera and the
    tracker are parameters of the development; the face-mesh deformer, the
    scene draw and the recorder are modelled from their written contracts. *)

From stdpp Require Import base list strings.
From Stdlib Require Import ZArith Lia.

(** ** Calls to the outside world, in the order the source makes them *)

Inductive Effect : Type :=
  | BrowserIncompatibleUI            (* ZapparThree.browserIncompatibleUI() *)
  | ThrowError (msg : string)        (* throw new Error(msg) *)
  | NewLoadingManager                (* new ZapparThree.LoadingManager() *)
  | NewWebGLRenderer                 (* new THREE.WebGLRenderer(...) *)
  | NewScene                         (* new THREE.Scene() *)
  | AppendCanvas                     (* document.body.appendChild(renderer.domElement) *)
  | RendererSetSize                  (* renderer.setSize(innerWidth, innerHeight) *)
  | NewCamera                        (* new ZapparThree.Camera() *)
  | PermissionRequestUI              (* ZapparThree.permissionRequestUI() *)
  | CameraStart (userFacing : bool)  (* camera.start(true) *)
  | PermissionDeniedUI               (* ZapparThree.permissionDeniedUI() *)
  | GlContextSet                     (* ZapparThree.glContextSet(...) *)
  | SetSceneBackground               (* scene.background = camera.backgroundTexture *)
  | LoadFaceTracker                  (* new FaceTrackerLoader(manager).load() *)
  | NewFaceAnchorGroup               (* new ZapparThree.FaceAnchorGroup(camera, faceTracker) *)
  | SceneAddFaceTrackerGroup         (* scene.add(faceTrackerGroup) *)
  | LoadFaceMesh                     (* new FaceMeshLoader(manager).load() *)
  | NewFaceBufferGeometry            (* new ZapparThree.FaceBufferGeometry(faceMesh) *)
  | LoadFaceTexture                  (* textureLoader.load(faceTextureTemplate) *)
  | NewFaceMeshMesh                  (* new THREE.Mesh(faceBufferGeometry, material) *)
  | GroupAddFaceMeshMesh             (* faceTrackerGroup.add(faceMeshMesh) *)
  | SceneAddDirectionalLight         (* scene.add(directionalLight) *)
  | SceneAddAmbientLight             (* scene.add(ambientLight) *)
  | GetPlaceButton                   (* document.getElementById('instructions') || ... *)
  | QueryCanvas                      (* document.querySelector('canvas') || ... *)
  | CreateCanvasVideoRecorder        (* ZapparVideoRecorder.createCanvasVideoRecorder(...) *)
  | RecorderStart                    (* recorder.start() *)
  | RecorderStop                     (* recorder.stop() *)
  | SetButtonText (text : string)    (* placeButton.innerText = text *)
  | ResultAsDataURL                  (* result.asDataURL() *)
  | WebGlSnapshotDialog              (* WebGlSnapshot({ data }) *)
  | CameraUpdateFrame                (* camera.updateFrame(renderer) *)
  | UpdateFromFaceAnchorGroup        (* faceBufferGeometry.updateFromFaceAnchorGroup(...) *)
  | RendererRender                   (* renderer.render(scene, camera) *)
  | RequestAnimationFrame.           (* requestAnimationFrame(render) *)

#[global] Instance Effect_eq_dec : EqDecision Effect.
Proof. solve_decision. Defined.

(** The closures the source registers.  [Listener]s stay registered
    ([addEventListener], [.bind]); [Continuation]s run once (the [.then] of a
    promise, the rest of an [async] function after an [await]);
    [FrameCallback]s are what [requestAnimationFrame] is given. *)

Inductive Listener : Type :=
  | OnResize | OnVisible | OnNotVisible | OnStart | OnComplete | OnClick.

Inductive Continuation : Type :=
  | PermissionThen        (* permissionRequestUI().then(granted => ...) *)
  | InitRecorderResume    (* initRecorder after await createCanvasVideoRecorder *)
  | OnCompleteResume.     (* onComplete callback after await result.asDataURL() *)

Inductive FrameCallback : Type :=
  | Render.

#[global] Instance Listener_eq_dec : EqDecision Listener.
Proof. solve_decision. Defined.
#[global] Instance Continuation_eq_dec : EqDecision Continuation.
Proof. solve_decision. Defined.

(** ** Mesh deformer *)

Module Deformer.
Section Deformer.
Context {Point : Type}.

(** Modelled from the spec: one vertex write, [positions[i] = p], of the loop
    of section 4.2.  The loop only ever writes at an index that is inside the
    buffer or just past its end; the second case grows the buffer by one
    vertex. *)
Definition write_vertex (i : nat) (p : Point) (positions : list Point) : list Point :=
  if decide (i < length positions) then <[i := p]> positions else positions ++ [p].

(** Modelled from the spec: the loop of section 4.2 from index [i] on. *)
Fixpoint write_from (i : nat) (landmarks positions : list Point) : list Point :=
  match landmarks with
  | [] => positions
  | p :: rest => write_from (S i) rest (write_vertex i p positions)
  end.

(** Modelled from the spec: [ZapparThree.FaceBufferGeometry] is library code
    outside the repository.  Section 4.2: "for each index i in LandmarkSet,
    write the corresponding vertex position in OverlayGeometry directly from
    the landmark's 3D coordinate (a direct 1:1 mapping)"; section 8: the
    output vertex count equals the LandmarkSet length. *)
Definition updateFromTracking (landmarks positions : list Point) : list Point :=
  write_from 0 landmarks (take (length landmarks) positions).

End Deformer.
End Deformer.

(** ** Recorder *)

Module Recorder.

Inductive Session : Type := Idle | Recording.
Inductive Notification : Type := NotifyStart | NotifyComplete.

Section Recorder.
Context {Frame : Type}.

(** Modelled from the spec: [@zappar/video-recorder] is library code outside
    the repository.  Section 3: "RecordingSession: transient state {idle,
    recording} with captured-frame accumulation".  [outbox] holds the
    notifications the recorder has decided to emit and has not yet delivered
    to the bound callbacks (section 4.4: completion "is signaled via
    [onComplete], not a blocking return"). *)
Record t : Type := mk {
  session : Session;
  captured : list Frame;
  outbox : list Notification
}.

(** Modelled from the spec: a recorder is created idle (section 3). *)
Definition create : t := mk Idle [] [].

(** Modelled from the spec: section 4.4, "[start] when already recording is a
    no-op"; otherwise a session starts and [onStart] is emitted. *)
Definition start (r : t) : t :=
  match session r with
  | Idle => mk Recording [] (outbox r ++ [NotifyStart])
  | Recording => r
  end.

(** Modelled from the spec: section 4.4, "[stop] when idle is a no-op";
    otherwise the encode is finalized and [onComplete] is emitted. *)
Definition stop (r : t) : t :=
  match session r with
  | Recording => mk Idle (captured r) (outbox r ++ [NotifyComplete])
  | Idle => r
  end.

(** Modelled from the spec: section 4.4, "While recording, on every tick after
    step 3 of the Render Loop, the Recorder samples CompositeSurface and
    appends it to the in-progress encode". *)
Definition sample (surface : option Frame) (r : t) : t :=
  match session r, surface with
  | Recording, Some f => mk Recording (captured r ++ [f]) (outbox r)
  | _, _ => r
  end.

(** Modelled from the spec: the next notification leaves the outbox, oldest
    first, to be handed to the callbacks bound to it. *)
Definition deliver (r : t) : option Notification * t :=
  match outbox r with
  | [] => (None, r)
  | n :: rest => (Some n, mk (session r) (captured r) rest)
  end.

End Recorder.
Arguments t : clear implicits.
End Recorder.

(** ** The page *)

Section Page.
Context {Point Tracker : Type}.

(** [camera.updateFrame(renderer)] and the landmark accessor of the face
    anchor are library code; the development is parametric in them. *)
Variable camera_updateFrame : Tracker -> Tracker.
Variable currentLandmarks : Tracker -> list Point.

(** What one [renderer.render(scene, camera)] leaves on the canvas: the camera
    background and, when the face tracker group is visible, the face mesh. *)
Record Frame : Type := mkFrame {
  background : Tracker;
  overlay : option (list Point)
}.

Record World : Type := mkWorld {
  log : list Effect;                  (* library calls made so far, oldest first *)
  listeners : list Listener;          (* closures bound to event sources *)
  continuations : list Continuation;  (* computations suspended at an await *)
  rafQueue : list FrameCallback;      (* callbacks for the next repaint *)
  tracker : Tracker;                  (* camera and face tracker state *)
  cameraStarted : bool;               (* camera.start has been called *)
  faceTrackerGroup_visible : bool;    (* faceTrackerGroup.visible *)
  faceBufferGeometry : list Point;    (* vertex positions of faceBufferGeometry *)
  canvas : list Frame;                (* frames drawn so far; the last is on screen *)
  recording : bool;                   (* the local [recording] of initRecorder *)
  recorder : Recorder.t Frame         (* the canvas video recorder *)
}.

Definition set_log (x : list Effect) (w : World) : World :=
  mkWorld x (listeners w) (continuations w) (rafQueue w) (tracker w) (cameraStarted w)
    (faceTrackerGroup_visible w) (faceBufferGeometry w) (canvas w) (recording w) (recorder w).
Definition set_listeners (x : list Listener) (w : World) : World :=
  mkWorld (log w) x (continuations w) (rafQueue w) (tracker w) (cameraStarted w)
    (faceTrackerGroup_visible w) (faceBufferGeometry w) (canvas w) (recording w) (recorder w).
Definition set_continuations (x : list Continuation) (w : World) : World :=
  mkWorld (log w) (listeners w) x (rafQueue w) (tracker w) (cameraStarted w)
    (faceTrackerGroup_visible w) (faceBufferGeometry w) (canvas w) (recording w) (recorder w).
Definition set_rafQueue (x : list FrameCallback) (w : World) : World :=
  mkWorld (log w) (listeners w) (continuations w) x (tracker w) (cameraStarted w)
    (faceTrackerGroup_visible w) (faceBufferGeometry w) (canvas w) (recording w) (recorder w).
Definition set_tracker (x : Tracker) (w : World) : World :=
  mkWorld (log w) (listeners w) (continuations w) (rafQueue w) x (cameraStarted w)
    (faceTrackerGroup_visible w) (faceBufferGeometry w) (canvas w) (recording w) (recorder w).
Definition set_cameraStarted (x : bool) (w : World) : World :=
  mkWorld (log w) (listeners w) (continuations w) (rafQueue w) (tracker w) x
    (faceTrackerGroup_visible w) (faceBufferGeometry w) (canvas w) (recording w) (recorder w).
Definition set_visible (x : bool) (w : World) : World :=
  mkWorld (log w) (listeners w) (continuations w) (rafQueue w) (tracker w) (cameraStarted w)
    x (faceBufferGeometry w) (canvas w) (recording w) (recorder w).
Definition set_geometry (x : list Point) (w : World) : World :=
  mkWorld (log w) (listeners w) (continuations w) (rafQueue w) (tracker w) (cameraStarted w)
    (faceTrackerGroup_visible w) x (canvas w) (recording w) (recorder w).
Definition set_canvas (x : list Frame) (w : World) : World :=
  mkWorld (log w) (listeners w) (continuations w) (rafQueue w) (tracker w) (cameraStarted w)
    (faceTrackerGroup_visible w) (faceBufferGeometry w) x (recording w) (recorder w).
Definition set_recording (x : bool) (w : World) : World :=
  mkWorld (log w) (listeners w) (continuations w) (rafQueue w) (tracker w) (cameraStarted w)
    (faceTrackerGroup_visible w) (faceBufferGeometry w) (canvas w) x (recorder w).
Definition set_recorder (x : Recorder.t Frame) (w : World) : World :=
  mkWorld (log w) (listeners w) (continuations w) (rafQueue w) (tracker w) (cameraStarted w)
    (faceTrackerGroup_visible w) (faceBufferGeometry w) (canvas w) (recording w) x.

(** *** The monad: state, plus an uncaught exception ([None]) *)

Definition M (A : Type) : Type := World -> option A * World.

#[global] Instance M_ret : MRet M := fun A a w => (Some a, w).
#[global] Instance M_bind : MBind M := fun A B f m w =>
  match m w with
  | (Some a, w') => f a w'
  | (None, w') => (None, w')
  end.

Definition exec {A : Type} (m : M A) (w : World) : World := (m w).2.

Definition gets {A : Type} (f : World -> A) : M A := fun w => (Some (f w), w).
Definition modify (f : World -> World) : M unit := fun w => (Some tt, f w).
Definition throw {A : Type} (msg : string) : M A :=
  fun w => (None, set_log (log w ++ [ThrowError msg]) w).
Definition emit (e : Effect) : M unit := modify (fun w => set_log (log w ++ [e]) w).
Definition addListener (l : Listener) : M unit :=
  modify (fun w => set_listeners (listeners w ++ [l]) w).
Definition await (k : Continuation) : M unit :=
  modify (fun w => set_continuations (continuations w ++ [k]) w).
Definition requestAnimationFrame (f : FrameCallback) : M unit :=
  emit RequestAnimationFrame ;; modify (fun w => set_rafQueue (rafQueue w ++ [f]) w).

(** *** [render], lines 167-181 *)

(** [faceBufferGeometry.updateFromFaceAnchorGroup(faceTrackerGroup)]: the
    geometry's vertex positions are rewritten from the landmarks the tracker
    holds after this tick's [updateFrame]. *)
Definition updateFromFaceAnchorGroup : M unit :=
  emit UpdateFromFaceAnchorGroup ;;
  modify (fun w =>
    set_geometry (Deformer.updateFromTracking (currentLandmarks (tracker w)) (faceBufferGeometry w)) w).

(** Modelled from the spec: [renderer.render(scene, camera)] is THREE library
    code.  Section 3, CompositeSurface: "the fully-composited frame (camera
    background + overlay)"; an object whose [visible] flag is clear is left
    out of the draw. *)
Definition draw (w : World) : Frame :=
  mkFrame (tracker w)
          (if faceTrackerGroup_visible w then Some (faceBufferGeometry w) else None).

Definition render : M unit :=
  (emit CameraUpdateFrame ;; modify (fun w => set_tracker (camera_updateFrame (tracker w)) w)) ;;
  updateFromFaceAnchorGroup ;;
  (emit RendererRender ;; modify (fun w => set_canvas (canvas w ++ [draw w]) w)) ;;
  requestAnimationFrame Render.

(** *** [initRecorder], lines 131-162 *)

Definition recorder_start : M unit :=
  emit RecorderStart ;; modify (fun w => set_recorder (Recorder.start (recorder w)) w).
Definition recorder_stop : M unit :=
  emit RecorderStop ;; modify (fun w => set_recorder (Recorder.stop (recorder w)) w).

(** Up to the first [await]. *)
Definition initRecorder : M unit :=
  emit QueryCanvas ;;
  emit CreateCanvasVideoRecorder ;;
  await InitRecorderResume.

(** After [createCanvasVideoRecorder] has resolved. *)
Definition initRecorder_resume : M unit :=
  modify (set_recorder Recorder.create) ;;
  modify (set_recording false) ;;
  addListener OnStart ;;
  addListener OnComplete ;;
  addListener OnClick.

(** The body of each registered closure. *)
Definition call (l : Listener) : M unit :=
  match l with
  | OnResize => emit RendererSetSize
  | OnVisible => modify (set_visible true)
  | OnNotVisible => modify (set_visible false)
  | OnStart =>
      modify (set_recording true) ;;
      emit (SetButtonText "TAP TO STOP RECORDING"%string)
  | OnComplete =>
      emit (SetButtonText "TAP TO START RECORDING"%string) ;;
      emit ResultAsDataURL ;;
      await OnCompleteResume
  | OnClick =>
      gets recording ≫= fun b : bool =>
      if b then recorder_stop else recorder_start
  end.

Definition onComplete_resume : M unit :=
  emit WebGlSnapshotDialog ;;
  modify (set_recording false).

Definition permissionThen (granted : bool) : M unit :=
  if granted then emit (CameraStart true) ;; modify (set_cameraStarted true)
  else emit PermissionDeniedUI.

(** *** The top-level script, lines 11-184 *)

Definition main (browserIncompatible : bool) : M unit :=
  (if browserIncompatible
   then emit BrowserIncompatibleUI ;; throw "Unsupported browser"%string
   else mret tt) ;;
  emit NewLoadingManager ;;
  emit NewWebGLRenderer ;;
  emit NewScene ;;
  emit AppendCanvas ;;
  emit RendererSetSize ;;
  addListener OnResize ;;
  emit NewCamera ;;
  (emit PermissionRequestUI ;; await PermissionThen) ;;
  emit GlContextSet ;;
  emit SetSceneBackground ;;
  emit LoadFaceTracker ;;
  (emit NewFaceAnchorGroup ;; modify (set_visible true)) ;;
  emit SceneAddFaceTrackerGroup ;;
  emit LoadFaceMesh ;;
  (emit NewFaceBufferGeometry ;; modify (set_geometry [])) ;;
  emit LoadFaceTexture ;;
  emit NewFaceMeshMesh ;;
  emit GroupAddFaceMeshMesh ;;
  emit SceneAddDirectionalLight ;;
  emit SceneAddAmbientLight ;;
  addListener OnVisible ;;
  addListener OnNotVisible ;;
  emit GetPlaceButton ;;
  initRecorder ;;
  render.

(** *** The browser's event loop *)

Inductive Event : Type :=
  | EvResize
  | EvPermission (granted : bool)   (* the permission promise resolves *)
  | EvRecorderCreated               (* createCanvasVideoRecorder resolves *)
  | EvAnimationFrame                (* the display is about to repaint *)
  | EvVisible                       (* faceTracker.onVisible fires *)
  | EvNotVisible                    (* faceTracker.onNotVisible fires *)
  | EvClick                         (* click on placeButton *)
  | EvRecorderNotify                (* the recorder delivers its next notification *)
  | EvDataURL                       (* result.asDataURL() resolves *)
  | EvTrackerPublish (t : Tracker). (* the tracking provider publishes a sample *)

Fixpoint call_matching (target : Listener) (ls : list Listener) : M unit :=
  match ls with
  | [] => mret tt
  | l :: rest =>
      (if decide (l = target) then call l else mret tt) ;;
      call_matching target rest
  end.

(** An event source invokes, in registration order, the closures bound to it. *)
Definition dispatch (target : Listener) : M unit :=
  gets listeners ≫= fun ls : list Listener =>
  call_matching target ls.

Fixpoint remove_first (k : Continuation) (ks : list Continuation) : list Continuation :=
  match ks with
  | [] => []
  | k' :: rest => if decide (k' = k) then rest else k' :: remove_first k rest
  end.

(** A suspended computation runs once, when what it awaits settles. *)
Definition resume (k : Continuation) (body : M unit) : M unit :=
  gets continuations ≫= fun ks : list Continuation =>
  if decide (k ∈ ks)
  then modify (set_continuations (remove_first k ks)) ;; body
  else mret tt.

Definition run_frame_callback (f : FrameCallback) : M unit :=
  match f with
  | Render => render
  end.

(** Modelled from the spec: the recorder's per-tick sampling of the canvas
    (section 4.4, "on every tick after step 3 of the Render Loop") is done by
    the recorder library, not by [render]. *)
Definition recorder_sample : M unit :=
  modify (fun w => set_recorder (Recorder.sample (last (canvas w)) (recorder w)) w).

Fixpoint run_frame_callbacks (q : list FrameCallback) : M unit :=
  match q with
  | [] => mret tt
  | f :: rest => run_frame_callback f ;; recorder_sample ;; run_frame_callbacks rest
  end.

(** The callbacks queued before the frame run; those queued during it wait for
    the next frame. *)
Definition animationFrame : M unit :=
  gets rafQueue ≫= fun q : list FrameCallback =>
  modify (set_rafQueue []) ;;
  run_frame_callbacks q.

Definition listener_of (n : Recorder.Notification) : Listener :=
  match n with
  | Recorder.NotifyStart => OnStart
  | Recorder.NotifyComplete => OnComplete
  end.

Definition recorderNotify : M unit :=
  gets recorder ≫= fun r : Recorder.t Frame =>
  match Recorder.deliver r with
  | (None, _) => mret tt
  | (Some n, r') =>
      modify (set_recorder r') ;;
      dispatch (listener_of n)
  end.

Definition handle (e : Event) : M unit :=
  match e with
  | EvResize => dispatch OnResize
  | EvPermission granted => resume PermissionThen (permissionThen granted)
  | EvRecorderCreated => resume InitRecorderResume initRecorder_resume
  | EvAnimationFrame => animationFrame
  | EvVisible => dispatch OnVisible
  | EvNotVisible => dispatch OnNotVisible
  | EvClick => dispatch OnClick
  | EvRecorderNotify => recorderNotify
  | EvDataURL => resume OnCompleteResume onComplete_resume
  | EvTrackerPublish t => modify (set_tracker t)
  end.

Definition step (w : World) (e : Event) : World := exec (handle e) w.

Definition run (evs : list Event) (w : World) : World := foldl step w evs.

(** Nothing exists before the script runs. *)
Definition blank (t0 : Tracker) : World :=
  mkWorld [] [] [] [] t0 false false [] [] false Recorder.create.

Definition boot (browserIncompatible : bool) (t0 : Tracker) : World :=
  exec (main browserIncompatible) (blank t0).

End Page.

(** ** Observations on a world *)

(** The four library calls of one [render] invocation, in program order. *)
Definition tick_block : list Effect :=
  [CameraUpdateFrame; UpdateFromFaceAnchorGroup; RendererRender; RequestAnimationFrame].

Definition occurrences (e : Effect) (l : list Effect) : nat :=
  length (filter (fun x => x = e) l).

(** The events that only concern the recording toggle. *)
Definition is_recorder_event {Tracker : Type} (e : @Event Tracker) : bool :=
  match e with
  | EvRecorderCreated | EvClick | EvRecorderNotify | EvDataURL => true
  | _ => false
  end.

Definition is_visibility_event {Tracker : Type} (e : @Event Tracker) : bool :=
  match e with
  | EvVisible | EvNotVisible => true
  | _ => false
  end.

(** What one event dictates for the overlay flag, [v] being its value before. *)
Definition gate {Tracker : Type} (v : bool) (e : @Event Tracker) : bool :=
  match e with
  | EvVisible => true
  | EvNotVisible => false
  | _ => v
  end.

Definition visibility_event {Tracker : Type} (v : bool) : @Event Tracker :=
  if v then EvVisible else EvNotVisible.

Section Observations.
Context {Point Tracker : Type}.
Implicit Types (w : @World Point Tracker).

(** The part of the log written by [render]. *)
Definition tick_trace w : list Effect := filter (fun e => e ∈ tick_block) (log w).

Definition calls (e : Effect) w : nat := occurrences e (log w).

(** Number of times [render] has run. *)
Definition ticks w : nat := calls CameraUpdateFrame w.

(** Everything the render loop reads or writes. *)
Record RenderView : Type := mkView {
  view_trace : list Effect;
  view_tracker : Tracker;
  view_visible : bool;
  view_geometry : list Point;
  view_canvas : list (@Frame Point Tracker);
  view_rafQueue : list FrameCallback
}.

Definition render_view w : RenderView :=
  mkView (tick_trace w) (tracker w) (faceTrackerGroup_visible w) (faceBufferGeometry w)
         (canvas w) (rafQueue w).

(** The registrations a normally started page can hold: the three listeners
    of the script, the three of [initRecorder] once the recorder exists, the
    two promises of the script until they settle, and one suspended
    [onComplete] callback per data URL still awaited. *)
Definition script_listeners : list Listener := [OnResize; OnVisible; OnNotVisible].
Definition recorder_listeners : list Listener := [OnStart; OnComplete; OnClick].

Definition pending (permission created : bool) (dataURLs : nat) : list Continuation :=
  (if permission then [PermissionThen] else [])
  ++ (if created then [] else [InitRecorderResume])
  ++ replicate dataURLs OnCompleteResume.

Definition wired (permission created : bool) (dataURLs : nat) w : Prop :=
  rafQueue w = [Render]
  /\ listeners w = script_listeners ++ (if created then recorder_listeners else [])
  /\ continuations w = pending permission created dataURLs.

Definition started w : Prop := exists p c n, wired p c n w.

(** The library calls one event causes on a page wired as [wired p c n]. *)
Definition emitted (p c : bool) (n : nat) w (e : @Event Tracker) : list Effect :=
  match e with
  | EvResize => [RendererSetSize]
  | EvPermission granted =>
      if p then (if granted then [CameraStart true] else [PermissionDeniedUI]) else []
  | EvAnimationFrame => tick_block
  | EvClick =>
      if c then (if recording w then [RecorderStop] else [RecorderStart]) else []
  | EvRecorderNotify =>
      match Recorder.outbox (recorder w) with
      | Recorder.NotifyStart :: _ =>
          if c then [SetButtonText "TAP TO STOP RECORDING"%string] else []
      | Recorder.NotifyComplete :: _ =>
          if c then [SetButtonText "TAP TO START RECORDING"%string; ResultAsDataURL] else []
      | [] => []
      end
  | EvDataURL => match n with 0 => [] | S _ => [WebGlSnapshotDialog] end
  | EvRecorderCreated | EvVisible | EvNotVisible | EvTrackerPublish _ => []
  end.

Variable camera_updateFrame : Tracker -> Tracker.
Variable currentLandmarks : Tracker -> list Point.

(** The render loop as a transition system over what it reads and writes. *)
Definition view_step (v : RenderView) (e : @Event Tracker) : RenderView :=
  match e with
  | EvAnimationFrame =>
      let t := camera_updateFrame (view_tracker v) in
      let g := Deformer.updateFromTracking (currentLandmarks t) (view_geometry v) in
      mkView (view_trace v ++ tick_block) t (view_visible v) g
             (view_canvas v ++ [mkFrame t (if view_visible v then Some g else None)])
             [Render]
  | EvVisible =>
      mkView (view_trace v) (view_tracker v) true (view_geometry v) (view_canvas v)
             (view_rafQueue v)
  | EvNotVisible =>
      mkView (view_trace v) (view_tracker v) false (view_geometry v) (view_canvas v)
             (view_rafQueue v)
  | EvTrackerPublish t =>
      mkView (view_trace v) t (view_visible v) (view_geometry v) (view_canvas v)
             (view_rafQueue v)
  | _ => v
  end.

(** How an event changes the wiring: the permission promise settles once,
    the recorder is created once. *)
Definition next_permission (p : bool) (e : @Event Tracker) : bool :=
  match e with
  | EvPermission _ => false
  | _ => p
  end.

Definition next_created (c : bool) (e : @Event Tracker) : bool :=
  match e with
  | EvRecorderCreated => true
  | _ => c
  end.

(** A page on which nothing is registered and nothing is queued. *)
Definition inert w : Prop :=
  listeners w = [] /\ continuations w = [] /\ rafQueue w = []
  /\ Recorder.outbox (recorder w) = [].

Definition permission_answer (e : @Event Tracker) : option bool :=
  match e with
  | EvPermission granted => Some granted
  | _ => None
  end.

Definition answered (evs : list (@Event Tracker)) : bool :=
  existsb (fun e => match permission_answer e with Some _ => true | None => false end) evs.

(** The events that run code of the recorder's [onStart] and [onComplete]
    callbacks: the delivery of a notification, and the resumption of an
    [onComplete] callback after its [await]. *)
Definition is_recorder_callback (e : @Event Tracker) : bool :=
  match e with
  | EvRecorderNotify | EvDataURL => true
  | _ => false
  end.

Definition onStart_firings w : nat := calls (SetButtonText "TAP TO STOP RECORDING"%string) w.
Definition onComplete_firings w : nat := calls ResultAsDataURL w.

(** The state between an accepted [recorder.start()] and the delivery of its
    [onStart]: the flag is still clear, the recorder is already recording. *)
Definition start_pending (p : bool) (n : nat) w : Prop :=
  wired p true n w /\ recording w = false
  /\ recorder w = Recorder.mk Recorder.Recording [] [Recorder.NotifyStart].

Definition is_animation_frame (e : @Event Tracker) : bool :=
  match e with
  | EvAnimationFrame => true
  | _ => false
  end.

Definition animation_frames (evs : list (@Event Tracker)) : nat :=
  length (filter (fun e => is_animation_frame e) evs).

Definition is_click (e : @Event Tracker) : bool :=
  match e with
  | EvClick => true
  | _ => false
  end.

Definition clicks (evs : list (@Event Tracker)) : nat :=
  length (filter (fun e => is_click e) evs).

End Observations.

(** ** Further observations *)

(** The calls the startup script makes once, before its first tick; the only
    setup call left out is [renderer.setSize], which the resize listener
    repeats. *)
Definition setup_block : list Effect :=
  [NewLoadingManager; NewWebGLRenderer; NewScene; AppendCanvas; NewCamera;
   PermissionRequestUI; GlContextSet; SetSceneBackground; LoadFaceTracker;
   NewFaceAnchorGroup; SceneAddFaceTrackerGroup; LoadFaceMesh; NewFaceBufferGeometry;
   LoadFaceTexture; NewFaceMeshMesh; GroupAddFaceMeshMesh; SceneAddDirectionalLight;
   SceneAddAmbientLight; GetPlaceButton; QueryCanvas; CreateCanvasVideoRecorder].

Definition button_text (e : Effect) : option string :=
  match e with
  | SetButtonText text => Some text
  | _ => None
  end.

Section MoreObservations.
Context {Point Tracker : Type}.
Implicit Types (w : @World Point Tracker).

Definition is_resize (e : @Event Tracker) : bool :=
  match e with
  | EvResize => true
  | _ => false
  end.

Definition resizes (evs : list (@Event Tracker)) : nat :=
  length (filter (fun e => is_resize e) evs).

Definition is_dataURL (e : @Event Tracker) : bool :=
  match e with
  | EvDataURL => true
  | _ => false
  end.

(** The clicks that find the click listener registered: those that come after
    the recorder has been created ([c] says whether it already is). *)
Fixpoint clicks_after_created (c : bool) (evs : list (@Event Tracker)) : nat :=
  match evs with
  | [] => 0
  | e :: rest =>
      (if c && is_click e then 1 else 0) + clicks_after_created (next_created c e) rest
  end.

(** Number of [onComplete] callbacks suspended at [await result.asDataURL()]. *)
Definition awaiting_dataURL w : nat :=
  length (filter (fun k => k = OnCompleteResume) (continuations w)).

(** [placeButton.innerText], as far as the script has set it. *)
Definition placeButton_innerText w : option string :=
  last (omap button_text (log w)).

End MoreObservations.

(** ** A concrete page

    Landmarks with integer coordinates; the tracker state is a frame counter
    and the landmarks last published; [updateFrame] advances the counter. *)

Module Demo.
Definition Point : Type := (Z * Z * Z)%type.
Definition Tracker : Type := (nat * list Point)%type.
Definition updateFrame (t : Tracker) : Tracker := (S t.1, t.2).
Definition landmarks (t : Tracker) : list Point := t.2.
Definition t0 : Tracker := (0, [(0, 0, 0)%Z; (1, 2, 3)%Z]).
Definition boot : @World Point Tracker := boot updateFrame landmarks false t0.
Definition run (evs : list (@Event Tracker)) (w : @World Point Tracker) : @World Point Tracker :=
  run updateFrame landmarks evs w.
End Demo.

(** * Properties *)

(** ** The deformer copies the landmarks *)

Module DeformerFacts.
Section DeformerFacts.
Context {Point : Type}.
Implicit Types (landmarks positions : list Point).

Lemma write_vertex_end (p : Point) positions :
  Deformer.write_vertex (length positions) p positions = positions ++ [p].
Proof.
  unfold Deformer.write_vertex.
  destruct (decide (length positions < length positions)); [lia | reflexivity].
Qed.

Lemma write_vertex_middle (p q : Point) (done todo : list Point) :
  Deformer.write_vertex (length done) p (done ++ q :: todo) = (done ++ [p]) ++ todo.
Proof.
  unfold Deformer.write_vertex.
  destruct (decide (length done < length (done ++ q :: todo))) as [_ | Hge].
  - rewrite insert_app_r_alt, Nat.sub_diag by lia. simpl. by rewrite <- app_assoc.
  - rewrite length_app in Hge. simpl in Hge. lia.
Qed.

(** The loop invariant: the vertices before the cursor are already the
    landmarks read so far; what is left of the old buffer is overwritten or,
    where the buffer is too short, appended. *)
Lemma write_from_spec landmarks : forall (done todo : list Point),
  length todo <= length landmarks ->
  Deformer.write_from (length done) landmarks (done ++ todo) = done ++ landmarks.
Proof.
  induction landmarks as [| p rest IH]; intros done todo Hlen; simpl in *.
  - destruct todo; simpl in Hlen; [reflexivity | lia].
  - destruct todo as [| q todo].
    + rewrite app_nil_r, write_vertex_end.
      specialize (IH (done ++ [p]) []).
      rewrite length_app, app_nil_r in IH. simpl in IH.
      rewrite Nat.add_1_r in IH. rewrite IH by (simpl; lia).
      by rewrite <- app_assoc.
    + rewrite write_vertex_middle.
      specialize (IH (done ++ [p]) todo).
      rewrite length_app in IH. simpl in IH.
      rewrite Nat.add_1_r in IH. rewrite IH by (simpl in Hlen; lia).
      by rewrite <- app_assoc.
Qed.

Lemma updateFromTracking_copies landmarks positions :
  Deformer.updateFromTracking landmarks positions = landmarks.
Proof.
  unfold Deformer.updateFromTracking.
  apply (write_from_spec landmarks [] (take (length landmarks) positions)).
  rewrite length_take. lia.
Qed.

Lemma updateFromTracking_iter landmarks positions (n : nat) :
  Nat.iter (S n) (Deformer.updateFromTracking landmarks) positions
  = Deformer.updateFromTracking landmarks positions.
Proof.
  induction n as [| n IH].
  - reflexivity.
  - change (Nat.iter (S (S n)) (Deformer.updateFromTracking landmarks) positions)
      with (Deformer.updateFromTracking landmarks
              (Nat.iter (S n) (Deformer.updateFromTracking landmarks) positions)).
    by rewrite !updateFromTracking_copies.
Qed.

End DeformerFacts.
End DeformerFacts.

(** ** The page *)

Section PageFacts.
Context {Point Tracker : Type}.
Variable camera_updateFrame : Tracker -> Tracker.
Variable currentLandmarks : Tracker -> list Point.

Local Abbreviation World := (@World Point Tracker).
Local Abbreviation render := (render camera_updateFrame currentLandmarks).
Local Abbreviation updateFromFaceAnchorGroup := (updateFromFaceAnchorGroup currentLandmarks).
Local Abbreviation handle := (handle camera_updateFrame currentLandmarks).
Local Abbreviation step := (step camera_updateFrame currentLandmarks).
Local Abbreviation run := (run camera_updateFrame currentLandmarks).
Local Abbreviation boot := (boot camera_updateFrame currentLandmarks).
Local Abbreviation animationFrame := (animationFrame camera_updateFrame currentLandmarks).
Local Abbreviation view_step := (view_step camera_updateFrame currentLandmarks).
Implicit Types (w : World) (e : @Event Tracker) (evs : list (@Event Tracker)).

Lemma run_app evs1 evs2 w : run (evs1 ++ evs2) w = run evs2 (run evs1 w).
Proof. apply foldl_app. Qed.

Lemma run_cons e evs w : run (e :: evs) w = run evs (step w e).
Proof. reflexivity. Qed.

Lemma render_log w : log (exec render w) = log w ++ tick_block.
Proof. unfold tick_block. simpl. by rewrite <- !app_assoc. Qed.

(** *** Suspended computations *)

Lemma resume_present (k : Continuation) (body : M unit) w :
  k ∈ continuations w ->
  exec (resume k body) w
  = exec body (set_continuations (remove_first k (continuations w)) w).
Proof.
  intros Hin. unfold resume, exec, gets, mbind, M_bind. simpl.
  destruct (decide (k ∈ continuations w)); [reflexivity | contradiction].
Qed.

Lemma resume_absent (k : Continuation) (body : M unit) w :
  k ∉ continuations w -> exec (resume k body) w = w.
Proof.
  intros Hin. unfold resume, exec, gets, mbind, M_bind. simpl.
  destruct (decide (k ∈ continuations w)); [contradiction | reflexivity].
Qed.

Lemma elem_of_pending (k : Continuation) (p c : bool) (n : nat) :
  k ∈ pending p c n <->
  match k with
  | PermissionThen => p = true
  | InitRecorderResume => c = false
  | OnCompleteResume => n <> 0
  end.
Proof.
  unfold pending. rewrite !elem_of_app, elem_of_replicate.
  destruct k, p, c; rewrite ?elem_of_cons, ?elem_of_nil; intuition (congruence || lia).
Qed.

Lemma remove_first_pending (p c : bool) (n : nat) :
  remove_first PermissionThen (pending true c n) = pending false c n
  /\ remove_first InitRecorderResume (pending p false n) = pending p true n
  /\ remove_first OnCompleteResume (pending p c (S n)) = pending p c n.
Proof. by destruct p, c. Qed.

(** *** One event on a normally started page *)

Lemma call_click w :
  exec (call OnClick) w
  = if recording w then exec recorder_stop w else exec recorder_start w.
Proof. unfold exec. simpl. unfold gets, mbind, M_bind. by destruct (recording w). Qed.

Lemma dispatch_wired (c : bool) (target : Listener) w :
  listeners w = script_listeners ++ (if c then recorder_listeners else []) ->
  exec (dispatch target) w
  = if decide (target ∈ listeners w) then exec (call target) w else w.
Proof.
  destruct w as [? ls ? ? ? ? ? ? ? rec ?]. simpl. intros ->.
  destruct c, target; try reflexivity; by destruct rec.
Qed.

Lemma step_cases (p c : bool) (n : nat) w e :
  wired p c n w ->
  step w e =
  match e with
  | EvResize => exec (call OnResize) w
  | EvPermission granted =>
      if p then exec (permissionThen granted) (set_continuations (pending false c n) w)
      else w
  | EvRecorderCreated =>
      if c then w
      else exec initRecorder_resume (set_continuations (pending p true n) w)
  | EvAnimationFrame => exec recorder_sample (exec render (set_rafQueue [] w))
  | EvVisible => set_visible true w
  | EvNotVisible => set_visible false w
  | EvClick => if c then exec (call OnClick) w else w
  | EvRecorderNotify =>
      match Recorder.deliver (recorder w) with
      | (None, _) => w
      | (Some note, r') =>
          if c then exec (call (listener_of note)) (set_recorder r' w)
          else set_recorder r' w
      end
  | EvDataURL =>
      match n with
      | 0 => w
      | S n' => exec onComplete_resume (set_continuations (pending p c n') w)
      end
  | EvTrackerPublish t => set_tracker t w
  end.
Proof.
  intros (Hraf & Hls & Hks). unfold step.
  destruct e as [| granted | | | | | | | | t]; simpl handle.
  - rewrite (dispatch_wired c) by done. rewrite Hls. reflexivity.
  - destruct p.
    + rewrite resume_present by (rewrite Hks; by apply elem_of_pending).
      rewrite Hks. by rewrite (proj1 (remove_first_pending true c n)).
    + apply resume_absent. rewrite Hks, elem_of_pending. done.
  - destruct c.
    + apply resume_absent. rewrite Hks, elem_of_pending. done.
    + rewrite resume_present by (rewrite Hks; by apply elem_of_pending).
      rewrite Hks. by rewrite (proj1 (proj2 (remove_first_pending p false n))).
  - unfold animationFrame, exec, gets, mbind, M_bind. simpl. rewrite Hraf. reflexivity.
  - rewrite (dispatch_wired c) by done. rewrite Hls. by destruct w.
  - rewrite (dispatch_wired c) by done. rewrite Hls. by destruct w.
  - rewrite (dispatch_wired c) by done. rewrite Hls. by destruct c.
  - unfold recorderNotify, exec, gets, mbind, M_bind. simpl.
    destruct (Recorder.deliver (recorder w)) as [[note |] r']; [| reflexivity].
    simpl. fold (exec (dispatch (listener_of note)) (set_recorder r' w)).
    rewrite (dispatch_wired c) by exact Hls.
    change (listeners (set_recorder r' w)) with (listeners w). rewrite Hls.
    by destruct c, note.
  - destruct n as [| n'].
    + apply resume_absent. rewrite Hks, elem_of_pending. intros H. exact (H eq_refl).
    + rewrite resume_present by (rewrite Hks; by apply elem_of_pending).
      rewrite Hks. by rewrite (proj2 (proj2 (remove_first_pending p c n'))).
  - reflexivity.
Qed.

Lemma pending_snoc (p c : bool) (n : nat) :
  pending p c n ++ [OnCompleteResume] = pending p c (S n).
Proof.
  unfold pending. rewrite <- !app_assoc. by rewrite <- replicate_S_end.
Qed.

Lemma boot_wired (t0 : Tracker) : wired true false 0 (boot false t0).
Proof. by repeat split. Qed.

Lemma step_wired (p c : bool) (n : nat) w e :
  wired p c n w ->
  exists n', wired (next_permission p e) (next_created c e) n' (step w e).
Proof.
  intros Hw. rewrite (step_cases p c n w e Hw). destruct Hw as (Hraf & Hls & Hks).
  destruct e as [| granted | | | | | | | | t]; simpl next_permission; simpl next_created.
  - exists n. by repeat split.
  - exists n. destruct p; [by destruct granted | by repeat split].
  - exists n. destruct c; [by repeat split |].
    repeat split; simpl; try done. by rewrite Hls.
  - exists n. by repeat split.
  - exists n. by repeat split.
  - exists n. by repeat split.
  - exists n. destruct c; [| by repeat split].
    rewrite call_click. destruct (recording w); by repeat split.
  - destruct (Recorder.deliver (recorder w)) as [[note |] r'];
      [| exists n; by repeat split].
    destruct c; [| exists n; by repeat split].
    destruct note.
    + exists n. by repeat split.
    + exists (S n). repeat split; simpl; try done.
      by rewrite Hks, pending_snoc.
  - destruct n as [| n']; [exists 0; by repeat split |].
    exists n'. by repeat split.
  - exists n. by repeat split.
Qed.

Lemma step_started w e : started w -> started (step w e).
Proof.
  intros (p & c & n & Hw). destruct (step_wired p c n w e Hw) as (n' & Hw').
  by exists (next_permission p e), (next_created c e), n'.
Qed.

Lemma step_log (p c : bool) (n : nat) w e :
  wired p c n w -> log (step w e) = log w ++ emitted p c n w e.
Proof.
  intros Hw. rewrite (step_cases p c n w e Hw).
  destruct e as [| granted | | | | | | | | t]; simpl emitted;
    rewrite ?app_nil_r; try reflexivity.
  - by destruct p, granted; rewrite ?app_nil_r.
  - by destruct c.
  - simpl. by rewrite <- !app_assoc.
  - destruct c; [| by rewrite app_nil_r]. rewrite call_click.
    by destruct (recording w).
  - unfold Recorder.deliver.
    destruct (Recorder.outbox (recorder w)) as [| [] rest]; destruct c;
      rewrite ?app_nil_r; try reflexivity.
    simpl. by rewrite <- !app_assoc.
  - by destruct n; rewrite ?app_nil_r.
Qed.

Lemma tick_trace_app w (l : list Effect) :
  filter (fun x : Effect => x ∈ tick_block) (log w ++ l)
  = tick_trace w ++ filter (fun x : Effect => x ∈ tick_block) l.
Proof. apply filter_app. Qed.

Lemma step_view (p c : bool) (n : nat) w e :
  wired p c n w -> render_view (step w e) = view_step (render_view w) e.
Proof.
  intros Hw. unfold render_view, tick_trace.
  rewrite (step_log p c n w e Hw), tick_trace_app.
  rewrite (step_cases p c n w e Hw). destruct Hw as (Hraf & Hls & Hks).
  destruct e as [| granted | | | | | | | | t]; simpl emitted; simpl view_step.
  - by rewrite app_nil_r.
  - destruct p, granted; by rewrite app_nil_r.
  - destruct c; by rewrite app_nil_r.
  - reflexivity.
  - by rewrite app_nil_r.
  - by rewrite app_nil_r.
  - destruct c; [| by rewrite app_nil_r]. rewrite call_click.
    destruct (recording w); by rewrite app_nil_r.
  - unfold Recorder.deliver.
    destruct (Recorder.outbox (recorder w)) as [| [] rest]; destruct c;
      by rewrite app_nil_r.
  - destruct n; by rewrite app_nil_r.
  - by rewrite app_nil_r.
Qed.

Lemma run_view evs : forall w,
  started w -> render_view (run evs w) = foldl view_step (render_view w) evs.
Proof.
  induction evs as [| e evs IH]; intros w Hw; [reflexivity |].
  simpl. rewrite IH by (by apply step_started).
  destruct Hw as (p & c & n & Hw). by rewrite (step_view p c n w e Hw).
Qed.

(** *** The render loop seen through its view *)

Lemma animation_frames_cons e evs :
  animation_frames (e :: evs)
  = (if is_animation_frame e then 1 else 0) + animation_frames evs.
Proof. unfold animation_frames. rewrite filter_cons. by destruct e. Qed.

Lemma foldl_view_visible evs : forall v,
  view_visible (foldl view_step v evs) = foldl gate (view_visible v) evs.
Proof.
  induction evs as [| e evs IH]; intros v; [reflexivity |].
  simpl. rewrite IH. by destruct e.
Qed.

Lemma foldl_view_trace evs : forall v,
  view_trace (foldl view_step v evs)
  = view_trace v ++ mjoin (replicate (animation_frames evs) tick_block).
Proof.
  induction evs as [| e evs IH]; intros v.
  - simpl. by rewrite app_nil_r.
  - simpl foldl. rewrite IH, animation_frames_cons.
    destruct e; simpl; try reflexivity. by rewrite <- !app_assoc.
Qed.

Lemma foldl_view_canvas_length evs : forall v,
  length (view_canvas (foldl view_step v evs))
  = length (view_canvas v) + animation_frames evs.
Proof.
  induction evs as [| e evs IH]; intros v.
  - simpl. unfold animation_frames. simpl. lia.
  - simpl foldl. rewrite IH, animation_frames_cons.
    destruct e; simpl; rewrite ?length_app; simpl; lia.
Qed.

Lemma foldl_view_without_recorder evs : forall v,
  foldl view_step v (filter (fun e => negb (is_recorder_event e)) evs)
  = foldl view_step v evs.
Proof.
  induction evs as [| e evs IH]; intros v; [reflexivity |].
  rewrite filter_cons. destruct e; simpl; apply IH.
Qed.

Lemma animation_frames_without_recorder evs :
  animation_frames (filter (fun e => negb (is_recorder_event e)) evs)
  = animation_frames evs.
Proof.
  induction evs as [| e evs IH]; [reflexivity |].
  rewrite filter_cons.
  destruct e; simpl; rewrite ?animation_frames_cons; simpl; by rewrite IH.
Qed.

Lemma foldl_view_overlay evs : forall v,
  Forall (fun e => is_visibility_event e = false) evs ->
  view_visible v = true ->
  Forall (fun f => overlay f <> None) (view_canvas v) ->
  view_visible (foldl view_step v evs) = true
  /\ Forall (fun f => overlay f <> None) (view_canvas (foldl view_step v evs)).
Proof.
  induction evs as [| e evs IH]; intros v Hevs Hvis Hcanvas; [done |].
  inversion Hevs as [| ? ? He Hrest]; subst.
  simpl foldl. apply IH; [exact Hrest | by destruct e | ].
  destruct e; try exact Hcanvas.
  simpl. apply Forall_app. split; [exact Hcanvas |].
  apply Forall_singleton. simpl. by rewrite Hvis.
Qed.

Lemma foldl_view_geometry evs : forall v1 v2,
  view_tracker v1 = view_tracker v2 ->
  view_geometry v1 = view_geometry v2 ->
  view_tracker (foldl view_step v1 evs)
  = view_tracker (foldl view_step v2 (filter (fun e => negb (is_visibility_event e)) evs))
  /\ view_geometry (foldl view_step v1 evs)
     = view_geometry (foldl view_step v2 (filter (fun e => negb (is_visibility_event e)) evs)).
Proof.
  induction evs as [| e evs IH]; intros v1 v2 Ht Hg; [done |].
  rewrite filter_cons.
  destruct e; simpl; apply IH; simpl; congruence.
Qed.

Lemma boot_view (t0 : Tracker) :
  render_view (boot false t0)
  = let t := camera_updateFrame t0 in
    let g := Deformer.updateFromTracking (currentLandmarks t) [] in
    mkView tick_block t true g [mkFrame t (Some g)] [Render].
Proof. reflexivity. Qed.

Lemma reachable_view evs (t0 : Tracker) :
  render_view (run evs (boot false t0)) = foldl view_step (render_view (boot false t0)) evs.
Proof. apply run_view. exists true, false, 0. apply boot_wired. Qed.

(** *** Counting calls *)

Lemma occurrences_app (x : Effect) (l1 l2 : list Effect) :
  occurrences x (l1 ++ l2) = occurrences x l1 + occurrences x l2.
Proof. unfold occurrences. by rewrite filter_app, length_app. Qed.

Lemma step_calls (p c : bool) (n : nat) (x : Effect) w e :
  wired p c n w -> calls x (step w e) = calls x w + occurrences x (emitted p c n w e).
Proof.
  intros Hw. unfold calls. by rewrite (step_log p c n w e Hw), occurrences_app.
Qed.

Lemma emitted_tick_effect (p c : bool) (n : nat) (x : Effect) w e :
  x ∈ tick_block ->
  occurrences x (emitted p c n w e) = if is_animation_frame e then 1 else 0.
Proof.
  unfold tick_block. rewrite !elem_of_cons, elem_of_nil.
  intros [-> | [-> | [-> | [-> | []]]]];
    (destruct e as [| granted | | | | | | | | t]; simpl; try reflexivity;
     [ by destruct p, granted
     | by destruct c, (recording w)
     | by destruct (Recorder.outbox (recorder w)) as [| [] ?], c
     | by destruct n ]).
Qed.

Lemma run_calls_tick_effect (x : Effect) evs : forall w,
  started w -> x ∈ tick_block ->
  calls x (run evs w) = calls x w + animation_frames evs.
Proof.
  induction evs as [| e evs IH]; intros w Hw Hx.
  - simpl. unfold animation_frames. simpl. lia.
  - simpl. rewrite IH by (by try apply step_started).
    destruct Hw as (p & c & n & Hw).
    rewrite (step_calls p c n x w e Hw), emitted_tick_effect by done.
    rewrite animation_frames_cons. lia.
Qed.

(** *** The render loop *)

Lemma tick_block_members :
  CameraUpdateFrame ∈ tick_block /\ UpdateFromFaceAnchorGroup ∈ tick_block.
Proof. unfold tick_block. rewrite !elem_of_cons. tauto. Qed.

Lemma boot_started (t0 : Tracker) : started (boot false t0).
Proof. exists true, false, 0. apply boot_wired. Qed.

(** C1. Every invocation of [render], from any state, makes exactly the four
    library calls [camera.updateFrame], [updateFromFaceAnchorGroup],
    [renderer.render], [requestAnimationFrame(render)], once each and in that
    order: the tracker is advanced first, the geometry is rewritten from the
    advanced tracker's landmarks, the frame drawn shows that geometry, and one
    [render] callback is queued for the next repaint.  On a normally started
    page the part of the log written by [render] is, after any sequence of
    events, that block of four repeated once per tick, and the number of ticks
    is one (the startup call) plus the number of animation frames. *)
Theorem render_tick_steps_in_order w evs (t0 : Tracker) :
  log (exec render w)
  = log w ++ [CameraUpdateFrame; UpdateFromFaceAnchorGroup; RendererRender;
              RequestAnimationFrame]
  /\ tracker (exec render w) = camera_updateFrame (tracker w)
  /\ faceBufferGeometry (exec render w)
     = Deformer.updateFromTracking (currentLandmarks (camera_updateFrame (tracker w)))
                                   (faceBufferGeometry w)
  /\ canvas (exec render w)
     = canvas w ++ [mkFrame (camera_updateFrame (tracker w))
                            (if faceTrackerGroup_visible w
                             then Some (faceBufferGeometry (exec render w))
                             else None)]
  /\ rafQueue (exec render w) = rafQueue w ++ [Render]
  /\ tick_trace (run evs (boot false t0))
     = mjoin (replicate (S (animation_frames evs)) tick_block)
  /\ ticks (run evs (boot false t0)) = S (animation_frames evs)
  /\ Forall (fun x => calls x (run evs (boot false t0)) = S (animation_frames evs))
            tick_block.
Proof.
  split; [apply render_log |]. repeat split.
  - change (tick_trace (run evs (boot false t0)))
      with (view_trace (render_view (run evs (boot false t0)))).
    by rewrite reachable_view, foldl_view_trace.
  - unfold ticks.
    by rewrite run_calls_tick_effect
      by (apply boot_started || apply tick_block_members).
  - apply Forall_forall. intros x Hx.
    rewrite run_calls_tick_effect by (apply boot_started || done).
    assert (calls x (boot false t0) = 1) as ->; [| reflexivity].
    revert Hx. unfold tick_block. rewrite !elem_of_cons, elem_of_nil.
    by intros [-> | [-> | [-> | [-> | []]]]].
Qed.

(** C5. [render] rewrites the geometry on every tick whatever the visibility
    flag says: from any state, with the flag forced to either value, the call
    to [updateFromFaceAnchorGroup] is made and the geometry becomes the copy
    of the landmarks the tracker holds after [updateFrame] (its last known
    ones when the face is lost); the flag only decides whether the frame
    drawn contains the mesh.  Over a whole run, the geometry is the same as
    in the run with every visibility event removed, and the deformer has been
    called once per tick. *)
Theorem deformation_ignores_visibility w (b : bool) evs (t0 : Tracker) :
  log (exec render (set_visible b w)) = log w ++ tick_block
  /\ faceBufferGeometry (exec render (set_visible b w))
     = Deformer.updateFromTracking (currentLandmarks (camera_updateFrame (tracker w)))
                                   (faceBufferGeometry w)
  /\ faceBufferGeometry (exec render (set_visible b w)) = faceBufferGeometry (exec render w)
  /\ last (canvas (exec render (set_visible b w)))
     = Some (mkFrame (camera_updateFrame (tracker w))
                     (if b then Some (faceBufferGeometry (exec render w)) else None))
  /\ faceBufferGeometry (run evs (boot false t0))
     = faceBufferGeometry
         (run (filter (fun e => negb (is_visibility_event e)) evs) (boot false t0))
  /\ calls UpdateFromFaceAnchorGroup (run evs (boot false t0))
     = ticks (run evs (boot false t0)).
Proof.
  split; [apply (render_log (set_visible b w)) |]. repeat split.
  - simpl. by rewrite last_snoc.
  - change (faceBufferGeometry (run evs (boot false t0)))
      with (view_geometry (render_view (run evs (boot false t0)))).
    rewrite reachable_view.
    rewrite (proj2 (foldl_view_geometry evs _ (render_view (boot false t0)) eq_refl eq_refl)).
    by rewrite <- reachable_view.
  - unfold ticks.
    by rewrite !run_calls_tick_effect
      by (apply boot_started || apply tick_block_members).
Qed.

(** C6. The deformer update is idempotent.  Applied twice, or any number of
    times, to the same landmarks it leaves exactly the vertex positions one
    application leaves, namely the landmarks themselves, whatever the buffer
    held before; and two consecutive [updateFromFaceAnchorGroup] calls on the
    page, with no tracker update in between, leave the geometry of the first. *)
Theorem deformer_update_idempotent (landmarks positions : list Point) (k : nat) w :
  Deformer.updateFromTracking landmarks (Deformer.updateFromTracking landmarks positions)
  = Deformer.updateFromTracking landmarks positions
  /\ Nat.iter (S k) (Deformer.updateFromTracking landmarks) positions
     = Deformer.updateFromTracking landmarks positions
  /\ Deformer.updateFromTracking landmarks positions = landmarks
  /\ faceBufferGeometry (exec updateFromFaceAnchorGroup (exec updateFromFaceAnchorGroup w))
     = faceBufferGeometry (exec updateFromFaceAnchorGroup w).
Proof.
  repeat split.
  - by rewrite !DeformerFacts.updateFromTracking_copies.
  - apply DeformerFacts.updateFromTracking_iter.
  - apply DeformerFacts.updateFromTracking_copies.
  - simpl. by rewrite !DeformerFacts.updateFromTracking_copies.
Qed.

(** C7. Recording is invisible to the render loop.  [render] neither reads
    nor writes the recorder or the [recording] flag, and on a normally started
    page everything the loop reads or writes (its calls, the tracker state,
    the visibility flag, the geometry, the frames drawn, the queued callback)
    and the tick count are, after any sequence of events, what they are after
    the same sequence with every recorder event removed (creation of the
    recorder, clicks, recorder notifications, data URL resolutions). *)
Theorem recording_invisible_to_render_loop
    w (r : Recorder.t (@Frame Point Tracker)) (b : bool) evs (t0 : Tracker) :
  render_view (exec render (set_recording b (set_recorder r w))) = render_view (exec render w)
  /\ recorder (exec render w) = recorder w
  /\ recording (exec render w) = recording w
  /\ render_view (exec recorder_sample w) = render_view w
  /\ render_view (run evs (boot false t0))
     = render_view (run (filter (fun e => negb (is_recorder_event e)) evs) (boot false t0))
  /\ ticks (run evs (boot false t0))
     = ticks (run (filter (fun e => negb (is_recorder_event e)) evs) (boot false t0)).
Proof.
  repeat split.
  - by rewrite !reachable_view, foldl_view_without_recorder.
  - unfold ticks.
    rewrite !run_calls_tick_effect
      by (apply boot_started || apply tick_block_members).
    by rewrite animation_frames_without_recorder.
Qed.

(** *** The visibility gate *)

Lemma reachable_visible evs (t0 : Tracker) :
  faceTrackerGroup_visible (run evs (boot false t0)) = foldl gate true evs.
Proof.
  change (faceTrackerGroup_visible (run evs (boot false t0)))
    with (view_visible (render_view (run evs (boot false t0)))).
  by rewrite reachable_view, foldl_view_visible.
Qed.

(** C4. The visibility gate is a last-event-wins binding.  On a normally
    started page, after any sequence of browser events the
    [faceTrackerGroup.visible] flag is the value dictated by the last
    visibility event of the sequence ([true] for onVisible, [false] for
    onNotVisible, the creation default when there was none); each visibility
    event takes effect at once, whatever came before; and after any run of
    visibility events alone, with no tick in between, the flag is the value of
    the last one, so onNotVisible directly followed by onVisible leaves the
    overlay visible. *)
Theorem visibility_gate_last_event_wins evs (t0 : Tracker) :
  faceTrackerGroup_visible (run evs (boot false t0)) = foldl gate true evs
  /\ faceTrackerGroup_visible (run (evs ++ [EvVisible]) (boot false t0)) = true
  /\ faceTrackerGroup_visible (run (evs ++ [EvNotVisible]) (boot false t0)) = false
  /\ faceTrackerGroup_visible (run (evs ++ [EvNotVisible; EvVisible]) (boot false t0)) = true
  /\ (forall (vs : list bool) (v : bool),
        faceTrackerGroup_visible
          (run (evs ++ (visibility_event <$> (vs ++ [v]))) (boot false t0)) = v).
Proof.
  repeat split.
  - apply reachable_visible.
  - by rewrite reachable_visible, foldl_app.
  - by rewrite reachable_visible, foldl_app.
  - by rewrite reachable_visible, foldl_app.
  - intros vs v. rewrite reachable_visible, fmap_app, app_assoc, foldl_app. by destruct v.
Qed.

(** C9. Before the first visibility event the overlay is visible: the face
    tracker group is created visible and the script never hides it, so as
    long as the tracker has fired neither onVisible nor onNotVisible the flag
    is [true], and every frame drawn so far (there is at least the one of the
    startup tick) contains the face mesh. *)
Theorem overlay_visible_before_first_visibility_event evs (t0 : Tracker) :
  Forall (fun e => is_visibility_event e = false) evs ->
  faceTrackerGroup_visible (boot false t0) = true
  /\ faceTrackerGroup_visible (run evs (boot false t0)) = true
  /\ length (canvas (run evs (boot false t0))) = S (animation_frames evs)
  /\ Forall (fun f => overlay f <> None) (canvas (run evs (boot false t0))).
Proof.
  intros Hevs. split; [reflexivity |].
  change (faceTrackerGroup_visible (run evs (boot false t0)))
    with (view_visible (render_view (run evs (boot false t0)))).
  change (canvas (run evs (boot false t0)))
    with (view_canvas (render_view (run evs (boot false t0)))).
  rewrite reachable_view, foldl_view_canvas_length, boot_view.
  cbv zeta.
  match goal with
  | |- context [foldl view_step ?v evs] =>
      destruct (foldl_view_overlay evs v Hevs) as [Hv Hc]
  end.
  - reflexivity.
  - apply Forall_singleton. simpl. discriminate.
  - by repeat split.
Qed.

(** *** Unsupported browser *)

Lemma step_inert w e :
  inert w ->
  inert (step w e) /\ log (step w e) = log w /\ canvas (step w e) = canvas w
  /\ cameraStarted (step w e) = cameraStarted w.
Proof.
  destruct w as [lg ls ks q tr cs vis geo cv rec [ses cap ob]].
  unfold inert. simpl. intros (-> & -> & -> & ->).
  by destruct e.
Qed.

Lemma run_inert evs : forall w,
  inert w ->
  inert (run evs w) /\ log (run evs w) = log w /\ canvas (run evs w) = canvas w
  /\ cameraStarted (run evs w) = cameraStarted w.
Proof.
  induction evs as [| e evs IH]; intros w Hw; [done |].
  destruct (step_inert w e Hw) as (Hw' & Hlog & Hcanvas & Hcamera).
  simpl. destruct (IH _ Hw') as (? & -> & -> & ->). by rewrite Hlog, Hcanvas, Hcamera.
Qed.

(** C8. In an unsupported browser the script shows the incompatibility
    dialog and throws before anything else: the only calls ever made are
    [browserIncompatibleUI()] and the [throw]; no renderer, scene, camera,
    tracker or recorder is created, no listener, promise or animation-frame
    callback is registered; and whatever the browser does afterwards, nothing
    more is called, so [render] never runs and nothing is ever drawn. *)
Theorem unsupported_browser_aborts_startup evs (t0 : Tracker) :
  (main camera_updateFrame currentLandmarks true (blank t0)).1 = None
  /\ log (boot true t0) = [BrowserIncompatibleUI; ThrowError "Unsupported browser"]
  /\ inert (boot true t0)
  /\ inert (run evs (boot true t0))
  /\ log (run evs (boot true t0))
     = [BrowserIncompatibleUI; ThrowError "Unsupported browser"]
  /\ ticks (run evs (boot true t0)) = 0
  /\ canvas (run evs (boot true t0)) = []
  /\ cameraStarted (run evs (boot true t0)) = false.
Proof.
  assert (Hinert : inert (boot true t0)) by by repeat split.
  destruct (run_inert evs _ Hinert) as (Hrun & Hlog & Hcanvas & Hcamera).
  split; [reflexivity |]. split; [reflexivity |]. split; [exact Hinert |].
  split; [exact Hrun |]. split; [by rewrite Hlog |].
  split; [unfold ticks, calls; by rewrite Hlog |].
  split; [by rewrite Hcanvas | by rewrite Hcamera].
Qed.

(** *** Camera permission *)

Lemma step_denied (p c : bool) (n : nat) w e :
  wired p c n w ->
  permission_answer e <> Some true ->
  cameraStarted (step w e) = cameraStarted w
  /\ occurrences (CameraStart true) (emitted p c n w e) = 0
  /\ occurrences PermissionDeniedUI (emitted p c n w e)
     = if p then (match permission_answer e with Some _ => 1 | None => 0 end) else 0.
Proof.
  intros Hw Hdenied. rewrite (step_cases p c n w e Hw).
  destruct e as [| granted | | | | | | | | t]; simpl in *.
  - by destruct p.
  - destruct granted; [done |]. by destruct p.
  - by destruct p, c.
  - by destruct p.
  - by destruct p.
  - by destruct p.
  - destruct c; [| by destruct p]. rewrite call_click. by destruct p, (recording w).
  - unfold Recorder.deliver.
    by destruct (Recorder.outbox (recorder w)) as [| [] ?], c, p.
  - by destruct n, p.
  - by destruct p.
Qed.

Lemma run_denied evs : forall (p c : bool) (n : nat) w,
  wired p c n w ->
  Forall (fun e => permission_answer e <> Some true) evs ->
  cameraStarted (run evs w) = cameraStarted w
  /\ calls (CameraStart true) (run evs w) = calls (CameraStart true) w
  /\ calls PermissionDeniedUI (run evs w)
     = calls PermissionDeniedUI w + (if p && answered evs then 1 else 0).
Proof.
  induction evs as [| e evs IH]; intros p c n w Hw Hevs.
  - simpl. rewrite andb_false_r. repeat split; lia.
  - inversion Hevs as [| ? ? He Hrest]; subst.
    destruct (step_wired p c n w e Hw) as (n' & Hw').
    rewrite run_cons.
    destruct (IH _ _ _ _ Hw' Hrest) as (-> & -> & ->).
    destruct (step_denied p c n w e Hw He) as (-> & Hstart & Hdenied).
    rewrite !(step_calls p c n _ w e Hw), Hstart, Hdenied.
    repeat split; [lia |].
    destruct e, p; simpl; lia.
Qed.

Lemma declined_answered evs :
  Exists (fun e => permission_answer e = Some false) evs -> answered evs = true.
Proof.
  induction 1 as [e evs He | e evs _ IH]; simpl.
  - by rewrite He.
  - rewrite IH. apply orb_true_r.
Qed.

(** C2, as the code has it.  When the user declines camera permission,
    [camera.start] is never called and the permission-denied dialog is shown,
    once; the render loop runs all the same: [render] is called once by the
    startup script, before the answer is known, and once more on every
    animation frame. *)
Theorem permission_denied_camera_not_started evs (t0 : Tracker) :
  Forall (fun e => permission_answer e <> Some true) evs ->
  Exists (fun e => permission_answer e = Some false) evs ->
  cameraStarted (run evs (boot false t0)) = false
  /\ calls (CameraStart true) (run evs (boot false t0)) = 0
  /\ calls PermissionDeniedUI (run evs (boot false t0)) = 1
  /\ ticks (boot false t0) = 1
  /\ ticks (run evs (boot false t0)) = S (animation_frames evs).
Proof.
  intros Hnever Hdeclined.
  destruct (run_denied evs true false 0 _ (boot_wired t0) Hnever) as (-> & -> & ->).
  rewrite (declined_answered evs Hdeclined).
  repeat split.
  unfold ticks.
  by rewrite run_calls_tick_effect by (apply boot_started || apply tick_block_members).
Qed.

(** *** The recording toggle *)

Lemma clicks_cons e evs :
  clicks (e :: evs) = (if is_click e then 1 else 0) + clicks evs.
Proof. unfold clicks. rewrite filter_cons. by destruct e. Qed.

Lemma step_click_flag (p : bool) (n : nat) w e :
  wired p true n w ->
  is_recorder_callback e = false ->
  recording (step w e) = recording w
  /\ occurrences RecorderStart (emitted p true n w e)
     = (if is_click e then (if recording w then 0 else 1) else 0)
  /\ occurrences RecorderStop (emitted p true n w e)
     = (if is_click e then (if recording w then 1 else 0) else 0).
Proof.
  intros Hw Hcb. rewrite (step_cases p true n w e Hw).
  destruct e as [| granted | | | | | | | | t]; try discriminate Hcb;
    cbn [emitted is_click]; try done.
  - by destruct p, granted.
  - rewrite call_click.
    destruct (recording w) eqn:Hrec;
      (split; [exact Hrec | by split]).
Qed.

Lemma run_click_flag evs : forall (p : bool) (n : nat) w,
  wired p true n w ->
  Forall (fun e => is_recorder_callback e = false) evs ->
  recording (run evs w) = recording w
  /\ calls RecorderStart (run evs w)
     = calls RecorderStart w + (if recording w then 0 else clicks evs)
  /\ calls RecorderStop (run evs w)
     = calls RecorderStop w + (if recording w then clicks evs else 0).
Proof.
  induction evs as [| e evs IH]; intros p n w Hw Hevs.
  - simpl. unfold clicks. simpl. destruct (recording w); repeat split; lia.
  - inversion Hevs as [| ? ? He Hrest]; subst.
    destruct (step_wired p true n w e Hw) as (n' & Hw').
    assert (next_created true e = true) as Hc by by destruct e.
    rewrite Hc in Hw'.
    destruct (IH _ _ _ Hw' Hrest) as (Hflag & Hstart & Hstop).
    destruct (step_click_flag p n w e Hw He) as (Hflag' & Hstart' & Hstop').
    rewrite run_cons, Hflag, Hstart, Hstop, Hflag'.
    rewrite !(step_calls p true n _ w e Hw), Hstart', Hstop', clicks_cons.
    destruct (is_click e), (recording w); repeat split; lia.
Qed.

Lemma run_created pre : forall (p c : bool) (n : nat) w,
  wired p c n w ->
  c = true \/ EvRecorderCreated ∈ pre ->
  exists p' n', wired p' true n' (run pre w).
Proof.
  induction pre as [| e pre IH]; intros p c n w Hw Hc.
  - destruct Hc as [-> | Hin]; [by exists p, n | by apply elem_of_nil in Hin].
  - destruct (step_wired p c n w e Hw) as (n' & Hw').
    apply (IH _ _ _ _ Hw').
    destruct Hc as [-> | Hin]; [left; by destruct e |].
    apply elem_of_cons in Hin as [<- | Hin]; [by left | by right].
Qed.

(** C10. The click handler decides on the [recording] flag alone and never
    writes it; the flag changes only when code of the recorder's [onStart] or
    [onComplete] callback runs.  So once the recorder exists, if a click finds
    the flag clear it calls [recorder.start()], and every further click that
    comes before any recorder callback code has run calls [recorder.start()]
    again and never [recorder.stop()]; if it finds the flag set it calls
    [recorder.stop()], and so does every further click until recorder
    callback code runs. *)
Theorem click_decision_uses_callback_flag w0 pre evs (t0 : Tracker) :
  EvRecorderCreated ∈ pre ->
  Forall (fun e => is_recorder_callback e = false) evs ->
  let w := run pre (boot false t0) in
  recording (exec (call OnClick) w0) = recording w0
  /\ recording (run (EvClick :: evs) w) = recording w
  /\ calls RecorderStart (run (EvClick :: evs) w)
     = calls RecorderStart w + (if recording w then 0 else S (clicks evs))
  /\ calls RecorderStop (run (EvClick :: evs) w)
     = calls RecorderStop w + (if recording w then S (clicks evs) else 0).
Proof.
  intros Hcreated Hevs w.
  split; [rewrite call_click; destruct (recording w0) eqn:Hrec; exact Hrec |].
  destruct (run_created pre true false 0 _ (boot_wired t0) (or_intror Hcreated))
    as (p & n & Hw).
  fold w in Hw.
  assert (Hall : Forall (fun e => is_recorder_callback e = false) (EvClick :: evs))
    by (by constructor).
  destruct (run_click_flag _ p n w Hw Hall) as (Hflag & Hstart & Hstop).
  by rewrite Hflag, Hstart, Hstop, clicks_cons.
Qed.

(** *** Double clicks while a start is pending *)

Lemma click_counts (p : bool) (n : nat) w :
  wired p true n w -> recording w = false ->
  wired p true n (step w EvClick)
  /\ recorder (step w EvClick) = Recorder.start (recorder w)
  /\ recording (step w EvClick) = false
  /\ calls RecorderStart (step w EvClick) = calls RecorderStart w + 1
  /\ onStart_firings (step w EvClick) = onStart_firings w
  /\ onComplete_firings (step w EvClick) = onComplete_firings w.
Proof.
  intros Hw Hrec. unfold onStart_firings, onComplete_firings.
  rewrite !(step_calls p true n _ w EvClick Hw).
  rewrite (step_cases p true n w EvClick Hw), call_click.
  cbn [emitted]. rewrite Hrec.
  destruct Hw as (Hraf & Hls & Hks).
  repeat split; try done; exact (Nat.add_0_r _).
Qed.

Lemma clicks_while_start_pending (p : bool) (n : nat) (m : nat) : forall w,
  start_pending p n w ->
  start_pending p n (run (replicate m EvClick) w)
  /\ calls RecorderStart (run (replicate m EvClick) w) = calls RecorderStart w + m
  /\ onStart_firings (run (replicate m EvClick) w) = onStart_firings w
  /\ onComplete_firings (run (replicate m EvClick) w) = onComplete_firings w.
Proof.
  induction m as [| m IH]; intros w Hpend.
  - simpl. repeat split; try apply Hpend; lia.
  - destruct Hpend as (Hw & Hrec & Hrecorder).
    destruct (click_counts p n w Hw Hrec) as (Hw' & Hr & Hflag & Hstart & Hon & Hoff).
    assert (Hpend' : start_pending p n (step w EvClick)).
    { repeat split; try apply Hw'; try exact Hflag. by rewrite Hr, Hrecorder. }
    destruct (IH _ Hpend') as (Hp & Hs & Ho & Hc).
    simpl replicate. rewrite run_cons.
    repeat split; try apply Hp; lia.
Qed.

Lemma notify_on_empty_outbox (p c : bool) (n : nat) (k : nat) : forall w,
  wired p c n w -> Recorder.outbox (recorder w) = [] ->
  run (replicate k EvRecorderNotify) w = w.
Proof.
  induction k as [| k IH]; intros w Hw Hout; [reflexivity |].
  simpl replicate. rewrite run_cons.
  assert (step w EvRecorderNotify = w) as ->; [| by apply IH].
  rewrite (step_cases p c n w EvRecorderNotify Hw).
  unfold Recorder.deliver. by rewrite Hout.
Qed.

Lemma notify_start_pending (p : bool) (n : nat) w :
  start_pending p n w ->
  let w' := step w EvRecorderNotify in
  wired p true n w'
  /\ recording w' = true
  /\ recorder w' = Recorder.mk Recorder.Recording [] []
  /\ calls RecorderStart w' = calls RecorderStart w
  /\ onStart_firings w' = onStart_firings w + 1
  /\ onComplete_firings w' = onComplete_firings w.
Proof.
  intros (Hw & Hrec & Hrecorder). unfold onStart_firings, onComplete_firings.
  cbv zeta.
  rewrite !(step_calls p true n _ w EvRecorderNotify Hw).
  rewrite (step_cases p true n w EvRecorderNotify Hw).
  cbn [emitted]. unfold Recorder.deliver. rewrite Hrecorder.
  destruct Hw as (Hraf & Hls & Hks).
  repeat split; try done; exact (Nat.add_0_r _).
Qed.

(** C3. The recording session is idle or recording, never both; [start] and
    [stop] are idempotent; starting an idle recorder twice emits one
    [onStart]; stopping an idle recorder emits nothing.  On the page, once the
    recorder exists and is idle with the flag clear, a double click (or any
    longer burst of clicks) calls [recorder.start()] once per click, yet when
    the notifications are delivered the [onStart] callback has run exactly
    once and [onComplete] not at all, and the page is recording. *)
Theorem recorder_start_stop_idempotent
    (r : Recorder.t (@Frame Point Tracker)) (cap : list (@Frame Point Tracker))
    (ob : list Recorder.Notification) pre (m k : nat) (t0 : Tracker) :
  let w := run pre (boot false t0) in
  EvRecorderCreated ∈ pre ->
  recording w = false ->
  Recorder.session (recorder w) = Recorder.Idle ->
  Recorder.outbox (recorder w) = [] ->
  ((Recorder.session r = Recorder.Idle \/ Recorder.session r = Recorder.Recording)
   /\ ~ (Recorder.session r = Recorder.Idle /\ Recorder.session r = Recorder.Recording))
  /\ Recorder.start (Recorder.start r) = Recorder.start r
  /\ Recorder.stop (Recorder.stop r) = Recorder.stop r
  /\ Recorder.outbox (Recorder.start (Recorder.start (Recorder.mk Recorder.Idle cap ob)))
     = ob ++ [Recorder.NotifyStart]
  /\ Recorder.stop (Recorder.mk Recorder.Idle cap ob) = Recorder.mk Recorder.Idle cap ob
  /\ (let w' := run (replicate (S (S m)) EvClick ++ replicate (S k) EvRecorderNotify) w in
      calls RecorderStart w' = calls RecorderStart w + S (S m)
      /\ onStart_firings w' = onStart_firings w + 1
      /\ onComplete_firings w' = onComplete_firings w
      /\ recording w' = true
      /\ Recorder.session (recorder w') = Recorder.Recording
      /\ Recorder.outbox (recorder w') = []).
Proof.
  intros w Hcreated Hrec Hidle Hout.
  split; [destruct (Recorder.session r); split; auto; intros [? ?]; congruence |].
  split; [by destruct r as [[] ? ?] |].
  split; [by destruct r as [[] ? ?] |].
  split; [reflexivity |]. split; [reflexivity |].
  destruct (run_created pre true false 0 _ (boot_wired t0) (or_intror Hcreated))
    as (p & n & Hw).
  fold w in Hw. cbv zeta.
  rewrite run_app. simpl replicate. rewrite !run_cons.
  destruct (click_counts p n w Hw Hrec) as (Hw1 & Hr1 & Hflag1 & Hs1 & Hon1 & Hoff1).
  assert (Hpend1 : start_pending p n (step w EvClick)).
  { repeat split; try apply Hw1; try exact Hflag1.
    rewrite Hr1. destruct (recorder w) as [ses cap' ob']. simpl in Hidle, Hout.
    by subst. }
  destruct (clicks_while_start_pending p n (S m) _ Hpend1) as (Hpend2 & Hs2 & Hon2 & Hoff2).
  simpl replicate in Hpend2, Hs2, Hon2, Hoff2. rewrite !run_cons in Hpend2, Hs2, Hon2, Hoff2.
  destruct (notify_start_pending p n _ Hpend2) as (Hw3 & Hflag3 & Hr3 & Hs3 & Hon3 & Hoff3).
  rewrite (notify_on_empty_outbox p true n k _ Hw3) by by rewrite Hr3.
  rewrite Hflag3, Hr3, Hs3, Hon3, Hoff3, Hs2, Hon2, Hoff2, Hs1, Hon1, Hoff1.
  repeat split; lia.
Qed.

(** ** Further properties of the page *)

Lemma run_started evs : forall w, started w -> started (run evs w).
Proof.
  induction evs as [| e evs IH]; intros w Hw; [exact Hw |].
  rewrite run_cons. apply IH. by apply step_started.
Qed.

Lemma run_calls_counted (x : Effect) (f : @Event Tracker -> bool) :
  (forall (p c : bool) (n : nat) w e,
      occurrences x (emitted p c n w e) = if f e then 1 else 0) ->
  forall evs w,
    started w ->
    calls x (run evs w) = calls x w + length (filter (fun e => f e) evs).
Proof.
  intros Hx. induction evs as [| e evs IH]; intros w Hw.
  - simpl. lia.
  - rewrite run_cons, IH by (by apply step_started).
    destruct Hw as (p & c & n & Hw).
    rewrite (step_calls p c n x w e Hw), Hx, filter_cons.
    destruct (f e); simpl; lia.
Qed.

Lemma run_calls_silent (x : Effect) :
  (forall (p c : bool) (n : nat) w e, occurrences x (emitted p c n w e) = 0) ->
  forall evs w, started w -> calls x (run evs w) = calls x w.
Proof.
  intros Hx evs w Hw.
  rewrite (run_calls_counted x (fun _ => false)) by done.
  assert (filter (fun _ : @Event Tracker => Is_true false) evs = []) as ->; [| simpl; lia].
  induction evs as [| e evs IH]; [reflexivity |]. by rewrite filter_cons.
Qed.

Lemma run_log_prefix evs : forall w, started w -> log w `prefix_of` log (run evs w).
Proof.
  induction evs as [| e evs IH]; intros w Hw; [done |].
  rewrite run_cons. etrans; [| apply IH; by apply step_started].
  destruct Hw as (p & c & n & Hw). rewrite (step_log p c n w e Hw).
  by apply prefix_app_r.
Qed.

Lemma animation_frames_snoc evs e :
  animation_frames (evs ++ [e])
  = animation_frames evs + (if is_animation_frame e then 1 else 0).
Proof.
  unfold animation_frames. rewrite filter_app, length_app. by destruct e.
Qed.

Lemma foldl_view_canvas_prefix evs : forall v,
  view_canvas v `prefix_of` view_canvas (foldl view_step v evs).
Proof.
  induction evs as [| e evs IH]; intros v; [done |].
  simpl foldl. etrans; [| apply IH].
  destruct e; try done. simpl. by apply prefix_app_r.
Qed.

(** The render loop keeps itself going at the display's pace.  On a normally
    started page, after any sequence of events exactly one [render] callback
    is queued for the next repaint; an animation frame runs exactly one tick
    and no other event runs any; one frame has been drawn per tick; and frames
    already drawn are never removed or rewritten. *)
Theorem render_loop_keeps_one_callback_queued evs more e (t0 : Tracker) :
  rafQueue (run evs (boot false t0)) = [Render]
  /\ ticks (run (evs ++ [e]) (boot false t0))
     = ticks (run evs (boot false t0)) + (if is_animation_frame e then 1 else 0)
  /\ length (canvas (run evs (boot false t0))) = ticks (run evs (boot false t0))
  /\ canvas (run evs (boot false t0)) `prefix_of` canvas (run (evs ++ more) (boot false t0)).
Proof.
  split.
  { destruct (run_started evs _ (boot_started t0)) as (p & c & n & Hraf & _). exact Hraf. }
  unfold ticks.
  rewrite !run_calls_tick_effect by (apply boot_started || apply tick_block_members).
  rewrite animation_frames_snoc.
  split; [lia |]. split.
  - change (canvas (run evs (boot false t0)))
      with (view_canvas (render_view (run evs (boot false t0)))).
    by rewrite reachable_view, foldl_view_canvas_length.
  - change (canvas (run evs (boot false t0)))
      with (view_canvas (render_view (run evs (boot false t0)))).
    change (canvas (run (evs ++ more) (boot false t0)))
      with (view_canvas (render_view (run (evs ++ more) (boot false t0)))).
    rewrite !reachable_view, foldl_app. apply foldl_view_canvas_prefix.
Qed.

(** The canvas follows the window.  [renderer.setSize] is called once by the
    startup script and once more for every resize event, and by nothing
    else. *)
Theorem renderer_resized_once_per_resize evs (t0 : Tracker) :
  calls RendererSetSize (run evs (boot false t0)) = 1 + resizes evs.
Proof.
  unfold resizes. rewrite (run_calls_counted RendererSetSize is_resize).
  - reflexivity.
  - intros p c n w e'.
    destruct e' as [| granted | | | | | | | | t]; cbn [emitted is_resize]; try reflexivity.
    + by destruct p, granted.
    + by destruct c, (recording w).
    + by destruct (Recorder.outbox (recorder w)) as [| [] ?], c.
    + by destruct n.
  - apply boot_started.
Qed.

Lemma emitted_no_setup (x : Effect) (p c : bool) (n : nat) w e :
  x ∈ setup_block -> occurrences x (emitted p c n w e) = 0.
Proof.
  unfold setup_block. rewrite !elem_of_cons, elem_of_nil. intros Hx.
  repeat (destruct Hx as [-> | Hx]); try (by destruct Hx);
    (destruct e as [| granted | | | | | | | | t]; cbn [emitted]; try reflexivity;
     [ by destruct p, granted
     | by destruct c, (recording w)
     | by destruct (Recorder.outbox (recorder w)) as [| [] ?], c
     | by destruct n ]).
Qed.

(** Setup happens once.  Whatever events follow, the log still begins with
    the calls of the startup script, and every setup call (loading manager,
    renderer, scene, camera, permission request, tracker, face mesh, lights,
    button lookup, creation of the video recorder) has been made exactly
    once: no event handler creates a second renderer, camera or recorder. *)
Theorem setup_runs_once evs (t0 : Tracker) :
  log (boot false t0) `prefix_of` log (run evs (boot false t0))
  /\ Forall (fun x => calls x (run evs (boot false t0)) = 1) setup_block.
Proof.
  split; [apply run_log_prefix, boot_started |].
  apply Forall_forall. intros x Hx.
  rewrite run_calls_silent.
  - revert Hx. unfold setup_block. rewrite !elem_of_cons, elem_of_nil. intros Hx.
    repeat (destruct Hx as [-> | Hx]); try reflexivity. by destruct Hx.
  - intros p c n w e. by apply emitted_no_setup.
  - apply boot_started.
Qed.

(** *** The permission answer *)

Lemma step_permission_settled (p c : bool) (n : nat) w e :
  wired p c n w ->
  p = false \/ permission_answer e = None ->
  cameraStarted (step w e) = cameraStarted w
  /\ occurrences (CameraStart true) (emitted p c n w e) = 0
  /\ occurrences PermissionDeniedUI (emitted p c n w e) = 0
  /\ next_permission p e = p.
Proof.
  intros Hw Hquiet. rewrite (step_cases p c n w e Hw).
  destruct e as [| granted | | | | | | | | t]; cbn [emitted next_permission].
  - done.
  - destruct Hquiet as [-> | Hnone]; [done | discriminate Hnone].
  - by destruct c.
  - done.
  - done.
  - done.
  - destruct c; [| done]. rewrite call_click. by destruct (recording w).
  - unfold Recorder.deliver.
    by destruct (Recorder.outbox (recorder w)) as [| [] ?], c.
  - by destruct n.
  - done.
Qed.

Lemma run_permission_settled evs : forall (p c : bool) (n : nat) w,
  wired p c n w ->
  p = false \/ Forall (fun e => permission_answer e = None) evs ->
  cameraStarted (run evs w) = cameraStarted w
  /\ calls (CameraStart true) (run evs w) = calls (CameraStart true) w
  /\ calls PermissionDeniedUI (run evs w) = calls PermissionDeniedUI w
  /\ exists c' n', wired p c' n' (run evs w).
Proof.
  induction evs as [| e evs IH]; intros p c n w Hw Hquiet.
  - repeat split. by exists c, n.
  - assert (Hstep : p = false \/ permission_answer e = None).
    { destruct Hquiet as [-> | Hall]; [by left | right; by inversion Hall]. }
    assert (Hrest : p = false \/ Forall (fun e => permission_answer e = None) evs).
    { destruct Hquiet as [-> | Hall]; [by left | right; by inversion Hall]. }
    destruct (step_permission_settled p c n w e Hw Hstep) as (Hcam & Hstart & Hdenied & Hp).
    destruct (step_wired p c n w e Hw) as (n' & Hw'). rewrite Hp in Hw'.
    destruct (IH _ _ _ _ Hw' Hrest) as (Hcam' & Hstart' & Hdenied' & Hwired).
    rewrite run_cons, Hcam', Hstart', Hdenied', Hcam.
    rewrite !(step_calls p c n _ w e Hw), Hstart, Hdenied.
    repeat split; try lia. exact Hwired.
Qed.

(** The first permission answer decides, once and for all.  If it grants,
    [camera.start(true)] is called, exactly once, and the denied dialog is
    never shown; if it refuses, the denied dialog is shown, exactly once, and
    the camera is never started.  Nothing that happens later, not even a
    second answer, changes this. *)
Theorem first_permission_answer_decides pre post (granted : bool) (t0 : Tracker) :
  Forall (fun e => permission_answer e = None) pre ->
  let w := run (pre ++ EvPermission granted :: post) (boot false t0) in
  cameraStarted w = granted
  /\ calls (CameraStart true) w = (if granted then 1 else 0)
  /\ calls PermissionDeniedUI w = (if granted then 0 else 1)
  /\ calls (CameraStart false) w = 0.
Proof.
  intros Hpre w. subst w.
  assert (Hback : calls (CameraStart false)
                    (run (pre ++ EvPermission granted :: post) (boot false t0)) = 0).
  { rewrite (run_calls_silent (CameraStart false)); [reflexivity | | apply boot_started].
    intros p c n w e.
    destruct e as [| g | | | | | | | | t]; cbn [emitted]; try reflexivity.
    - by destruct p, g.
    - by destruct c, (recording w).
    - by destruct (Recorder.outbox (recorder w)) as [| [] ?], c.
    - by destruct n. }
  revert Hback. rewrite run_app, run_cons. intros Hback.
  destruct (run_permission_settled pre true false 0 _ (boot_wired t0) (or_intror Hpre))
    as (Hcam1 & Hstart1 & Hdenied1 & c1 & n1 & Hw1).
  set (w1 := run pre (boot false t0)) in *.
  destruct (step_wired true c1 n1 w1 (EvPermission granted) Hw1) as (n2 & Hw2).
  cbn [next_permission next_created] in Hw2.
  destruct (run_permission_settled post false c1 n2 _ Hw2 (or_introl eq_refl))
    as (-> & -> & -> & _).
  rewrite !(step_calls true c1 n1 _ w1 _ Hw1), (step_cases true c1 n1 w1 _ Hw1).
  rewrite Hstart1, Hdenied1.
  split; [destruct granted; [reflexivity | exact Hcam1] |].
  split; [by destruct granted |]. split; [by destruct granted |].
  by rewrite (step_cases true c1 n1 w1 _ Hw1) in Hback.
Qed.

(** *** Clicks *)

Lemma emitted_recorder_call (p c : bool) (n : nat) w e :
  occurrences RecorderStart (emitted p c n w e) + occurrences RecorderStop (emitted p c n w e)
  = if c && is_click e then 1 else 0.
Proof.
  destruct e as [| granted | | | | | | | | t]; cbn [emitted is_click];
    rewrite ?andb_false_r; try reflexivity.
  - by destruct p, granted.
  - by destruct c, (recording w).
  - by destruct (Recorder.outbox (recorder w)) as [| [] ?], c.
  - by destruct n.
Qed.

Lemma run_recorder_calls evs : forall (p c : bool) (n : nat) w,
  wired p c n w ->
  calls RecorderStart (run evs w) + calls RecorderStop (run evs w)
  = calls RecorderStart w + calls RecorderStop w + clicks_after_created c evs.
Proof.
  induction evs as [| e evs IH]; intros p c n w Hw.
  - simpl. lia.
  - destruct (step_wired p c n w e Hw) as (n' & Hw').
    rewrite run_cons, (IH _ _ _ _ Hw').
    rewrite !(step_calls p c n _ w e Hw).
    pose proof (emitted_recorder_call p c n w e). simpl clicks_after_created. lia.
Qed.

(** Each click makes one recorder call, once there is a recorder.  Clicks
    that come before [createCanvasVideoRecorder] has resolved find no listener
    and do nothing; every later click calls either [recorder.start()] or
    [recorder.stop()], exactly one of the two, and nothing else ever calls
    them.  In particular, if the recorder is never created, no click has any
    effect on it. *)
Theorem one_recorder_call_per_click evs (t0 : Tracker) :
  calls RecorderStart (run evs (boot false t0)) + calls RecorderStop (run evs (boot false t0))
  = clicks_after_created false evs.
Proof.
  rewrite (run_recorder_calls evs true false 0 _ (boot_wired t0)). reflexivity.
Qed.

Lemma step_stop_guard (p c : bool) (n : nat) w e :
  wired p c n w ->
  1 <= onStart_firings w \/ (recording w = false /\ calls RecorderStop w = 0) ->
  1 <= onStart_firings (step w e)
  \/ (recording (step w e) = false /\ calls RecorderStop (step w e) = 0).
Proof.
  intros Hw Hguard. unfold onStart_firings in *.
  rewrite !(step_calls p c n _ w e Hw).
  destruct Hguard as [Hfired | [Hrec Hstop]]; [left; lia |].
  rewrite Hstop, (step_cases p c n w e Hw).
  destruct e as [| granted | | | | | | | | t]; cbn [emitted].
  - by right.
  - right. by destruct p, granted.
  - right. by destruct c.
  - by right.
  - by right.
  - by right.
  - right. destruct c; [| done]. rewrite call_click, Hrec. by split.
  - unfold Recorder.deliver.
    destruct (Recorder.outbox (recorder w)) as [| [] rest]; destruct c;
      try (by right).
    left. assert (occurrences (SetButtonText "TAP TO STOP RECORDING")
                    [SetButtonText "TAP TO STOP RECORDING"] = 1) as -> by reflexivity.
    lia.
  - right. by destruct n.
  - by right.
Qed.

(** No stop before a start has been acknowledged.  As long as the recorder's
    [onStart] callback has never run, the [recording] flag is clear and
    [recorder.stop()] has never been called: whatever the user clicks, the
    page only ever asks the recorder to stop after the recorder has reported
    a start. *)
Theorem no_stop_before_first_onStart evs (t0 : Tracker) :
  1 <= onStart_firings (run evs (boot false t0))
  \/ (recording (run evs (boot false t0)) = false
      /\ calls RecorderStop (run evs (boot false t0)) = 0).
Proof.
  assert (Hgen : forall evs' w,
            started w ->
            1 <= onStart_firings w \/ (recording w = false /\ calls RecorderStop w = 0) ->
            1 <= onStart_firings (run evs' w)
            \/ (recording (run evs' w) = false /\ calls RecorderStop (run evs' w) = 0)).
  { induction evs' as [| e evs' IH]; intros w Hw Hguard; [exact Hguard |].
    rewrite run_cons. apply IH; [by apply step_started |].
    destruct Hw as (p & c & n & Hw). by apply (step_stop_guard p c n). }
  apply Hgen; [apply boot_started | right; by split].
Qed.

(** *** The share dialog *)

Lemma count_replicate_resume (n : nat) :
  length (filter (fun k => k = OnCompleteResume) (replicate n OnCompleteResume)) = n.
Proof.
  induction n as [| n IH]; [reflexivity |].
  simpl replicate. rewrite filter_cons, decide_True by done. simpl. by rewrite IH.
Qed.

Lemma wired_awaiting (p c : bool) (n : nat) w :
  wired p c n w -> awaiting_dataURL w = n.
Proof.
  intros (_ & _ & Hks). unfold awaiting_dataURL, pending in *. rewrite Hks.
  rewrite !filter_app, !length_app, count_replicate_resume.
  by destruct p, c.
Qed.

Ltac count_occurrences :=
  repeat match goal with
  | |- context [occurrences ?x ?l] =>
      let v := eval vm_compute in (occurrences x l) in
      change (occurrences x l) with v
  end.

Lemma step_wired_dataURL (p c : bool) (n : nat) w e :
  wired p c n w ->
  exists n',
    wired (next_permission p e) (next_created c e) n' (step w e)
    /\ n' + occurrences WebGlSnapshotDialog (emitted p c n w e)
       = n + occurrences ResultAsDataURL (emitted p c n w e)
    /\ (is_dataURL e = false -> n <= n').
Proof.
  intros Hw. rewrite (step_cases p c n w e Hw). destruct Hw as (Hraf & Hls & Hks).
  destruct e as [| granted | | | | | | | | t];
    cbn [next_permission next_created emitted is_dataURL].
  - exists n. by repeat split.
  - exists n. destruct p; [by destruct granted | by repeat split].
  - exists n. destruct c; [by repeat split |].
    repeat split; simpl; try done. by rewrite Hls.
  - exists n. by repeat split.
  - exists n. by repeat split.
  - exists n. by repeat split.
  - exists n. destruct c; [| by repeat split].
    rewrite call_click. destruct (recording w); by repeat split.
  - unfold Recorder.deliver.
    destruct (Recorder.outbox (recorder w)) as [| [] rest]; destruct c;
      try (exists n; by repeat split).
    exists (S n). count_occurrences. repeat split; simpl; try done; try lia.
    by rewrite Hks, pending_snoc.
  - destruct n as [| n']; [exists 0; by repeat split |].
    exists n'. count_occurrences. repeat split; try done; lia.
  - exists n. by repeat split.
Qed.

Lemma run_dataURL_accounting evs : forall (p c : bool) (n : nat) w,
  wired p c n w ->
  onComplete_firings w = calls WebGlSnapshotDialog w + n ->
  onComplete_firings (run evs w)
  = calls WebGlSnapshotDialog (run evs w) + awaiting_dataURL (run evs w).
Proof.
  induction evs as [| e evs IH]; intros p c n w Hw Hcount.
  - simpl. by rewrite (wired_awaiting p c n w Hw).
  - destruct (step_wired_dataURL p c n w e Hw) as (n' & Hw' & Hn & _).
    rewrite run_cons. apply (IH _ _ _ _ Hw').
    unfold onComplete_firings in *. rewrite !(step_calls p c n _ w e Hw). lia.
Qed.

(** Every finished recording gets its share dialog, and nothing else does.
    The number of [onComplete] callbacks that have run (each asks the result
    for its data URL) is the number of [WebGlSnapshot] dialogs opened plus the
    number of callbacks still waiting for their data URL: a dialog is opened
    only for a completed recording, once, and only after its data URL has
    resolved. *)
Theorem share_dialog_accounting evs (t0 : Tracker) :
  onComplete_firings (run evs (boot false t0))
  = calls WebGlSnapshotDialog (run evs (boot false t0))
    + awaiting_dataURL (run evs (boot false t0)).
Proof. by apply (run_dataURL_accounting evs true false 0 _ (boot_wired t0)). Qed.

(** *** The flag after a recording has completed *)

Lemma step_flag_set (p : bool) (n : nat) w e :
  wired p true n w ->
  recording w = true ->
  is_dataURL e = false ->
  recording (step w e) = true
  /\ occurrences RecorderStart (emitted p true n w e) = 0
  /\ occurrences RecorderStop (emitted p true n w e) = (if is_click e then 1 else 0).
Proof.
  intros Hw Hrec He. rewrite (step_cases p true n w e Hw).
  destruct e as [| granted | | | | | | | | t]; try discriminate He;
    cbn [emitted is_click]; try done.
  - by destruct p, granted.
  - rewrite call_click, Hrec. by repeat split.
  - unfold Recorder.deliver.
    by destruct (Recorder.outbox (recorder w)) as [| [] rest].
Qed.

Lemma run_flag_set evs : forall (p : bool) (n : nat) w,
  wired p true n w ->
  recording w = true ->
  Forall (fun e => is_dataURL e = false) evs ->
  recording (run evs w) = true
  /\ calls RecorderStart (run evs w) = calls RecorderStart w
  /\ calls RecorderStop (run evs w) = calls RecorderStop w + clicks evs.
Proof.
  induction evs as [| e evs IH]; intros p n w Hw Hrec Hevs.
  - simpl. unfold clicks. simpl. repeat split; try done; lia.
  - inversion Hevs as [| ? ? He Hrest]; subst.
    destruct (step_wired p true n w e Hw) as (n' & Hw').
    assert (next_created true e = true) as Hc by by destruct e.
    rewrite Hc in Hw'.
    destruct (step_flag_set p n w e Hw Hrec He) as (Hflag & Hstart & Hstop).
    destruct (IH _ _ _ Hw' Hflag Hrest) as (Hflag' & Hstart' & Hstop').
    rewrite run_cons, Hflag', Hstart', Hstop'.
    rewrite !(step_calls p true n _ w e Hw), Hstart, Hstop, clicks_cons.
    repeat split; lia.
Qed.

(** Only a resolved data URL clears the flag.  Once [recording] is set it
    stays set through every event other than the resolution of a data URL:
    further [onStart] or [onComplete] notifications, frames and clicks leave
    it set, so every click calls [recorder.stop()] and none calls
    [recorder.start()].  If [result.asDataURL()] never resolves, the page can
    never start another recording. *)
Theorem flag_cleared_only_by_dataURL pre evs (t0 : Tracker) :
  EvRecorderCreated ∈ pre ->
  Forall (fun e => is_dataURL e = false) evs ->
  let w := run pre (boot false t0) in
  recording w = true ->
  recording (run evs w) = true
  /\ calls RecorderStart (run evs w) = calls RecorderStart w
  /\ calls RecorderStop (run evs w) = calls RecorderStop w + clicks evs.
Proof.
  intros Hcreated Hevs w Hrec.
  destruct (run_created pre true false 0 _ (boot_wired t0) (or_intror Hcreated))
    as (p & n & Hw).
  fold w in Hw. by apply (run_flag_set evs p n).
Qed.

(** The button text runs ahead of the flag.  When [onComplete] fires on a
    page that is recording, the button reads "TAP TO START RECORDING" at once,
    but the flag is cleared only after the [await]: a click at that moment
    calls [recorder.stop()], not [recorder.start()].  Once the data URL has
    resolved the flag is clear and the next click calls [recorder.start()]. *)
Theorem button_text_runs_ahead_of_flag pre (rest : list Recorder.Notification) (t0 : Tracker) :
  EvRecorderCreated ∈ pre ->
  let w := run pre (boot false t0) in
  recording w = true ->
  Recorder.outbox (recorder w) = Recorder.NotifyComplete :: rest ->
  placeButton_innerText (run [EvRecorderNotify] w) = Some "TAP TO START RECORDING"%string
  /\ recording (run [EvRecorderNotify] w) = true
  /\ calls RecorderStop (run [EvRecorderNotify; EvClick] w) = calls RecorderStop w + 1
  /\ calls RecorderStart (run [EvRecorderNotify; EvClick] w) = calls RecorderStart w
  /\ recording (run [EvRecorderNotify; EvDataURL] w) = false
  /\ calls RecorderStart (run [EvRecorderNotify; EvDataURL; EvClick] w)
     = calls RecorderStart w + 1
  /\ calls RecorderStop (run [EvRecorderNotify; EvDataURL; EvClick] w) = calls RecorderStop w.
Proof.
  intros Hcreated w Hrec Hout.
  destruct (run_created pre true false 0 _ (boot_wired t0) (or_intror Hcreated))
    as (p & n & Hw).
  fold w in Hw.
  assert (Hquiet : Forall (fun e : @Event Tracker => is_dataURL e = false)
                     [EvRecorderNotify; EvClick]) by (by repeat constructor).
  destruct (run_flag_set _ p n w Hw Hrec Hquiet) as (_ & Hstart & Hstop).
  assert (Hquiet1 : Forall (fun e : @Event Tracker => is_dataURL e = false)
                      [EvRecorderNotify]) by (by repeat constructor).
  destruct (run_flag_set _ p n w Hw Hrec Hquiet1) as (Hflag1 & Hstart1 & Hstop1).
  split.
  { unfold placeButton_innerText. change (run [EvRecorderNotify] w) with (step w EvRecorderNotify).
    rewrite (step_log p true n w _ Hw). cbn [emitted]. rewrite Hout.
    rewrite omap_app. simpl. by rewrite last_snoc. }
  split; [exact Hflag1 |]. split; [exact Hstop |]. split; [exact Hstart |].
  change (run [EvRecorderNotify; EvDataURL] w)
    with (step (run [EvRecorderNotify] w) EvDataURL).
  change (run [EvRecorderNotify; EvDataURL; EvClick] w)
    with (step (step (run [EvRecorderNotify] w) EvDataURL) EvClick).
  change (run [EvRecorderNotify] w) with (step w EvRecorderNotify) in *.
  destruct (step_wired_dataURL p true n w EvRecorderNotify Hw) as (n1 & Hw1 & Hn1 & _).
  cbn [emitted next_permission next_created] in Hn1, Hw1. rewrite Hout in Hn1.
  assert (n1 = S n) as ->.
  { revert Hn1. count_occurrences. lia. }
  set (w1 := step w EvRecorderNotify) in *.
  destruct (step_wired p true (S n) w1 EvDataURL Hw1) as (n2 & Hw2).
  cbn [next_permission next_created] in Hw2.
  assert (Hflag2 : recording (step w1 EvDataURL) = false)
    by (by rewrite (step_cases p true (S n) w1 EvDataURL Hw1)).
  destruct (click_counts p n2 _ Hw2 Hflag2) as (_ & _ & _ & Hstart3 & _).
  split; [exact Hflag2 |].
  rewrite Hstart3, !(step_calls p true n2 _ _ EvClick Hw2).
  rewrite !(step_calls p true (S n) _ w1 EvDataURL Hw1), Hstart1, Hstop1.
  cbn [emitted]. rewrite Hflag2. count_occurrences.
  unfold clicks. simpl. split; lia.
Qed.

(** *** Tracking samples and frames *)

(** No one-tick lag.  A tracking sample published before an animation frame
    is the one that frame shows: the tick advances the camera from that
    sample, rewrites the geometry from the landmarks it then holds, and draws
    a frame with that camera image and, if the group is visible, that
    geometry. *)
Theorem published_sample_shown_in_next_frame evs (t : Tracker) (t0 : Tracker) :
  let w := run evs (boot false t0) in
  let w' := run (evs ++ [EvTrackerPublish t; EvAnimationFrame]) (boot false t0) in
  tracker w' = camera_updateFrame t
  /\ faceBufferGeometry w'
     = Deformer.updateFromTracking (currentLandmarks (camera_updateFrame t))
                                   (faceBufferGeometry w)
  /\ last (canvas w')
     = Some (mkFrame (camera_updateFrame t)
                     (if faceTrackerGroup_visible w then Some (faceBufferGeometry w') else None))
  /\ ticks w' = S (ticks w).
Proof.
  intros w w'.
  assert (Hview : render_view w'
                  = view_step (view_step (render_view w) (EvTrackerPublish t)) EvAnimationFrame).
  { unfold w', w. by rewrite !reachable_view, foldl_app. }
  split; [exact (f_equal view_tracker Hview) |].
  split; [exact (f_equal view_geometry Hview) |].
  split.
  - change (canvas w') with (view_canvas (render_view w')).
    change (faceBufferGeometry w') with (view_geometry (render_view w')).
    rewrite Hview. simpl. by rewrite last_snoc.
  - unfold w', w, ticks.
    rewrite !run_calls_tick_effect by (apply boot_started || apply tick_block_members).
    unfold animation_frames. rewrite filter_app, length_app. simpl. lia.
Qed.

(** *** Registered listeners *)

Lemma run_wired_created evs : forall (p c : bool) (n : nat) w,
  wired p c n w ->
  exists p' n', wired p' (foldl next_created c evs) n' (run evs w).
Proof.
  induction evs as [| e evs IH]; intros p c n w Hw.
  - by exists p, n.
  - destruct (step_wired p c n w e Hw) as (n' & Hw').
    rewrite run_cons. simpl foldl. by apply (IH _ _ _ _ Hw').
Qed.

(** No listener is registered twice.  After any sequence of events the
    registered listeners are the three of the startup script (resize,
    onVisible, onNotVisible), followed, once [createCanvasVideoRecorder] has
    resolved, by the three of [initRecorder] (onStart, onComplete, click),
    each exactly once: no event makes a handler run twice for one
    occurrence. *)
Theorem listeners_registered_once evs (t0 : Tracker) :
  listeners (run evs (boot false t0))
  = script_listeners ++ (if foldl next_created false evs then recorder_listeners else [])
  /\ NoDup (listeners (run evs (boot false t0))).
Proof.
  destruct (run_wired_created evs true false 0 _ (boot_wired t0)) as (p & n & _ & Hls & _).
  split; [exact Hls |]. rewrite Hls.
  destruct (foldl next_created false evs);
    unfold script_listeners, recorder_listeners; simpl;
    apply (bool_decide_unpack _); reflexivity.
Qed.

End PageFacts.

(** * Concrete runs *)

(** The deformer on a buffer that is too long, too short, and empty. *)
Example updateFromTracking_shrinks :
  Deformer.updateFromTracking [(1, 2, 3)%Z] [(0, 0, 0)%Z; (9, 9, 9)%Z] = [(1, 2, 3)%Z].
Proof. reflexivity. Qed.

Example updateFromTracking_grows :
  Deformer.updateFromTracking [(1, 2, 3)%Z; (4, 5, 6)%Z] [(0, 0, 0)%Z]
  = [(1, 2, 3)%Z; (4, 5, 6)%Z].
Proof. reflexivity. Qed.

(** The startup script on a supported browser: the setup calls in source
    order, then the first tick. *)
Example boot_log :
  log Demo.boot
  = [NewLoadingManager; NewWebGLRenderer; NewScene; AppendCanvas; RendererSetSize;
     NewCamera; PermissionRequestUI; GlContextSet; SetSceneBackground; LoadFaceTracker;
     NewFaceAnchorGroup; SceneAddFaceTrackerGroup; LoadFaceMesh; NewFaceBufferGeometry;
     LoadFaceTexture; NewFaceMeshMesh; GroupAddFaceMeshMesh; SceneAddDirectionalLight;
     SceneAddAmbientLight; GetPlaceButton; QueryCanvas; CreateCanvasVideoRecorder;
     CameraUpdateFrame; UpdateFromFaceAnchorGroup; RendererRender; RequestAnimationFrame].
Proof. reflexivity. Qed.

(** A recording from first click to share dialog; the second click of the
    double click reaches the recorder and is ignored by it. *)
Example record_and_share :
  let w := Demo.run [EvRecorderCreated; EvClick; EvClick; EvRecorderNotify;
                     EvAnimationFrame; EvClick; EvRecorderNotify; EvDataURL] Demo.boot in
  calls RecorderStart w = 2
  /\ calls RecorderStop w = 1
  /\ onStart_firings w = 1
  /\ onComplete_firings w = 1
  /\ calls WebGlSnapshotDialog w = 1
  /\ recording w = false
  /\ length (Recorder.captured (recorder w)) = 1.
Proof. by repeat split. Qed.

(** C2, counterexample.  The render loop ticks although the user declined the
    camera: one tick at startup and one on the animation frame that follows
    the refusal. *)
Lemma permission_denied_render_loop_still_ticks :
  let evs := [EvPermission false; EvAnimationFrame] in
  let w := Demo.run evs Demo.boot in
  Exists (fun e => permission_answer e = Some false) evs
  /\ Forall (fun e => permission_answer e <> Some true) evs
  /\ calls PermissionDeniedUI w = 1
  /\ ticks Demo.boot = 1
  /\ ticks w = 2
  /\ ticks w <> 0.
Proof.
  cbv zeta. split; [by apply Exists_cons_hd |].
  split; [by repeat constructor |].
  by repeat split.
Qed.

Lemma permission_denied_camera_not_started_witness :
  let evs := [EvPermission false; EvAnimationFrame] in
  Forall (fun e : @Event Demo.Tracker => permission_answer e <> Some true) evs
  /\ Exists (fun e : @Event Demo.Tracker => permission_answer e = Some false) evs
  /\ cameraStarted (Demo.run evs Demo.boot) = false
  /\ ticks (Demo.run evs Demo.boot) = 2.
Proof.
  cbv zeta.
  assert (Hnever : Forall (fun e : @Event Demo.Tracker => permission_answer e <> Some true)
                     [EvPermission false; EvAnimationFrame])
    by (repeat constructor; discriminate).
  assert (Hdeclined : Exists (fun e : @Event Demo.Tracker => permission_answer e = Some false)
                        [EvPermission false; EvAnimationFrame])
    by (apply Exists_cons_hd; reflexivity).
  split; [exact Hnever |]. split; [exact Hdeclined |].
  destruct (permission_denied_camera_not_started Demo.updateFrame Demo.landmarks
              [EvPermission false; EvAnimationFrame] Demo.t0 Hnever Hdeclined)
    as (Hcamera & _ & _ & _ & Hticks).
  split; [exact Hcamera | exact Hticks].
Defined.

Lemma recorder_start_stop_idempotent_witness :
  let w := Demo.run [EvAnimationFrame; EvRecorderCreated] Demo.boot in
  EvRecorderCreated ∈ [@EvAnimationFrame Demo.Tracker; EvRecorderCreated]
  /\ recording w = false
  /\ Recorder.session (recorder w) = Recorder.Idle
  /\ Recorder.outbox (recorder w) = []
  /\ onStart_firings (Demo.run [EvClick; EvClick; EvRecorderNotify] w) = onStart_firings w + 1.
Proof.
  cbv zeta.
  assert (Hcreated : EvRecorderCreated ∈ [@EvAnimationFrame Demo.Tracker; EvRecorderCreated])
    by (apply list_elem_of_further, list_elem_of_here).
  split; [exact Hcreated |].
  split; [reflexivity |]. split; [reflexivity |]. split; [reflexivity |].
  destruct (recorder_start_stop_idempotent Demo.updateFrame Demo.landmarks
              Recorder.create [] [] [EvAnimationFrame; EvRecorderCreated] 0 0 Demo.t0
              Hcreated eq_refl eq_refl eq_refl)
    as (_ & _ & _ & _ & _ & _ & Hfired & _).
  exact Hfired.
Defined.

Lemma overlay_visible_before_first_visibility_event_witness :
  let evs := [@EvAnimationFrame Demo.Tracker; EvClick; EvAnimationFrame] in
  Forall (fun e => is_visibility_event e = false) evs
  /\ faceTrackerGroup_visible (Demo.run evs Demo.boot) = true
  /\ length (canvas (Demo.run evs Demo.boot)) = 3.
Proof.
  cbv zeta.
  assert (Hevs : Forall (fun e : @Event Demo.Tracker => is_visibility_event e = false)
                   [EvAnimationFrame; EvClick; EvAnimationFrame])
    by (repeat constructor).
  split; [exact Hevs |].
  destruct (overlay_visible_before_first_visibility_event Demo.updateFrame Demo.landmarks
              [EvAnimationFrame; EvClick; EvAnimationFrame] Demo.t0 Hevs)
    as (_ & Hvisible & Hlength & _).
  split; [exact Hvisible | exact Hlength].
Defined.

Lemma click_decision_uses_callback_flag_witness :
  let pre := [@EvRecorderCreated Demo.Tracker] in
  let evs := [@EvAnimationFrame Demo.Tracker; EvClick] in
  let w := Demo.run pre Demo.boot in
  EvRecorderCreated ∈ pre
  /\ Forall (fun e => is_recorder_callback e = false) evs
  /\ recording w = false
  /\ calls RecorderStart (Demo.run (EvClick :: evs) w) = 2
  /\ calls RecorderStop (Demo.run (EvClick :: evs) w) = 0.
Proof.
  cbv zeta.
  assert (Hcreated : EvRecorderCreated ∈ [@EvRecorderCreated Demo.Tracker])
    by apply list_elem_of_here.
  assert (Hevs : Forall (fun e : @Event Demo.Tracker => is_recorder_callback e = false)
                   [EvAnimationFrame; EvClick])
    by (repeat constructor).
  split; [exact Hcreated |]. split; [exact Hevs |]. split; [reflexivity |].
  destruct (click_decision_uses_callback_flag Demo.updateFrame Demo.landmarks
              Demo.boot [EvRecorderCreated] [EvAnimationFrame; EvClick] Demo.t0
              Hcreated Hevs)
    as (_ & _ & Hstart & Hstop).
  split; [exact Hstart | exact Hstop].
Defined.

Lemma first_permission_answer_decides_witness :
  let pre := [@EvAnimationFrame Demo.Tracker] in
  let post := [@EvPermission Demo.Tracker false; EvClick] in
  Forall (fun e => permission_answer e = None) pre
  /\ cameraStarted (Demo.run (pre ++ EvPermission true :: post) Demo.boot) = true
  /\ calls PermissionDeniedUI (Demo.run (pre ++ EvPermission true :: post) Demo.boot) = 0.
Proof.
  cbv zeta.
  assert (Hpre : Forall (fun e : @Event Demo.Tracker => permission_answer e = None)
                   [EvAnimationFrame])
    by (repeat constructor).
  split; [exact Hpre |].
  destruct (first_permission_answer_decides Demo.updateFrame Demo.landmarks
              [EvAnimationFrame] [EvPermission false; EvClick] true Demo.t0 Hpre)
    as (Hcamera & _ & Hdenied & _).
  split; [exact Hcamera | exact Hdenied].
Defined.

Lemma flag_cleared_only_by_dataURL_witness :
  let pre := [@EvRecorderCreated Demo.Tracker; EvClick; EvRecorderNotify] in
  let evs := [@EvClick Demo.Tracker; EvRecorderNotify; EvClick; EvAnimationFrame] in
  let w := Demo.run pre Demo.boot in
  EvRecorderCreated ∈ pre
  /\ Forall (fun e => is_dataURL e = false) evs
  /\ recording w = true
  /\ recording (Demo.run evs w) = true
  /\ calls RecorderStop (Demo.run evs w) = calls RecorderStop w + 2.
Proof.
  cbv zeta.
  assert (Hcreated : EvRecorderCreated
                     ∈ [@EvRecorderCreated Demo.Tracker; EvClick; EvRecorderNotify])
    by apply list_elem_of_here.
  assert (Hevs : Forall (fun e : @Event Demo.Tracker => is_dataURL e = false)
                   [EvClick; EvRecorderNotify; EvClick; EvAnimationFrame])
    by (repeat constructor).
  split; [exact Hcreated |]. split; [exact Hevs |]. split; [reflexivity |].
  destruct (flag_cleared_only_by_dataURL Demo.updateFrame Demo.landmarks
              [EvRecorderCreated; EvClick; EvRecorderNotify]
              [EvClick; EvRecorderNotify; EvClick; EvAnimationFrame] Demo.t0
              Hcreated Hevs eq_refl)
    as (Hflag & _ & Hstop).
  split; [exact Hflag | exact Hstop].
Defined.

Lemma button_text_runs_ahead_of_flag_witness :
  let pre := [@EvRecorderCreated Demo.Tracker; EvClick; EvRecorderNotify; EvClick] in
  let w := Demo.run pre Demo.boot in
  EvRecorderCreated ∈ pre
  /\ recording w = true
  /\ Recorder.outbox (recorder w) = [Recorder.NotifyComplete]
  /\ placeButton_innerText (Demo.run [EvRecorderNotify] w)
     = Some "TAP TO START RECORDING"%string
  /\ calls RecorderStop (Demo.run [EvRecorderNotify; EvClick] w) = calls RecorderStop w + 1.
Proof.
  cbv zeta.
  assert (Hcreated : EvRecorderCreated
                     ∈ [@EvRecorderCreated Demo.Tracker; EvClick; EvRecorderNotify; EvClick])
    by apply list_elem_of_here.
  split; [exact Hcreated |]. split; [reflexivity |]. split; [reflexivity |].
  destruct (button_text_runs_ahead_of_flag Demo.updateFrame Demo.landmarks
              [EvRecorderCreated; EvClick; EvRecorderNotify; EvClick] [] Demo.t0
              Hcreated eq_refl eq_refl)
    as (Htext & _ & Hstop & _).
  split; [exact Htext | exact Hstop].
Defined.
